(** * Restaurant review pipeline: review store, scorer and chat plan

    A shallow embedding of [main.py]:
    - [normalize_restaurant_name], [fetch_restaurant_reviews_hash] and
      [fetch_restaurant_data] (the review store),
    - [calculate_overall_score] (the scorer),
    - the list of chats that [main] hands to [initiate_chats], and the
      conversational runtime as the spec describes it ([ChatRuntime]).

    Python values are embedded as follows.
    - [str] is a sequence of code points; the embedding covers the code
      points U+0000..U+00FF, one Rocq [ascii] each, with [str.lower] and
      [str.isalnum] as Python defines them on that range.
    - [int] is [Z].
    - [float] is IEEE 754 binary64, through the executable specification
      [SpecFloat] of the Standard Library at [prec = 53], [emax = 1024],
      rounding to nearest even.
    - [dict] is a [gmap]; [list] is [list].
    - a raised exception is the [Raise] outcome of the [outcome] monad. *)

From Stdlib Require Import ZArith List Ascii String DecimalString Lia.
From Stdlib Require Import SpecFloat.
From stdpp Require Import base option list strings gmap.

Local Open Scope Z_scope.

(** ** Exceptions and outcomes *)

(** The built-in exceptions that the embedded code can raise. *)
Inductive exception : Type :=
| ValueError
| IndexError
| ZeroDivisionError
| OverflowError.

(** The class name of an exception, as [type(e).__name__] gives it. *)
Definition exception_name (e : exception) : string :=
  match e with
  | ValueError => "ValueError"
  | IndexError => "IndexError"
  | ZeroDivisionError => "ZeroDivisionError"
  | OverflowError => "OverflowError"
  end.

Inductive outcome (A : Type) : Type :=
| Return (v : A)
| Raise (e : exception).

Arguments Return {A} v.
Arguments Raise {A} e.

Definition bind {A B : Type} (c : outcome A) (k : A -> outcome B) : outcome B :=
  match c with
  | Return v => k v
  | Raise e => Raise e
  end.

Notation "'let!' x ':=' c 'in' k" := (bind c (fun x => k))
  (at level 10, x name, c at level 100, k at level 200).

Definition returns {A : Type} (c : outcome A) : Prop := exists v, c = Return v.
Definition raises {A : Type} (c : outcome A) : Prop := exists e, c = Raise e.

(** [c] fails with an exception whose class is called [name]. *)
Definition raises_named {A : Type} (c : outcome A) (name : string) : Prop :=
  exists e, c = Raise e /\ exception_name e = name.

(** ** Python strings on U+0000..U+00FF *)

Module PyStr.

Definition in_range (lo hi n : N) : bool := ((lo <=? n) && (n <=? hi))%N.

(** [str.lower] on one code point: A-Z, and the Latin-1 capitals
    U+00C0..U+00DE except the multiplication sign U+00D7, move up by 32. *)
Definition lower_char (c : ascii) : ascii :=
  let n := N_of_ascii c in
  if in_range 65 90 n || in_range 192 214 n || in_range 216 222 n
  then ascii_of_N (n + 32)
  else c.

(** [str.isalnum] on one code point: [isalpha], [isdecimal], [isdigit]
    or [isnumeric]. Below U+0100 these are the ASCII digits and letters,
    the ordinal indicators U+00AA and U+00BA, the micro sign U+00B5, the
    superscripts U+00B2, U+00B3, U+00B9, the fractions U+00BC..U+00BE
    and the Latin-1 letters. *)
Definition isalnum_char (c : ascii) : bool :=
  let n := N_of_ascii c in
  in_range 48 57 n || in_range 65 90 n || in_range 97 122 n
  || (n =? 170)%N || in_range 178 179 n || (n =? 181)%N
  || in_range 185 186 n || in_range 188 190 n
  || in_range 192 214 n || in_range 216 246 n || in_range 248 255 n.

Fixpoint lower (s : string) : string :=
  match s with
  | EmptyString => EmptyString
  | String c s' => String (lower_char c) (lower s')
  end.

(** ["".join(c for c in s if p(c))] *)
Fixpoint join_filter (p : ascii -> bool) (s : string) : string :=
  match s with
  | EmptyString => EmptyString
  | String c s' => if p c then String c (join_filter p s') else join_filter p s'
  end.

(** [Some rest] when [s = pre ++ rest]. *)
Fixpoint strip_prefix (pre s : string) : option string :=
  match pre, s with
  | EmptyString, _ => Some s
  | String a pre', String b s' =>
      if Ascii.eqb a b then strip_prefix pre' s' else None
  | String _ _, EmptyString => None
  end.

(** The leftmost occurrence of [sep] in [s]: the text before it and the
    text after it. *)
Fixpoint partition_first (sep s : string) : option (string * string) :=
  match strip_prefix sep s with
  | Some rest => Some (EmptyString, rest)
  | None =>
      match s with
      | EmptyString => None
      | String c s' =>
          match partition_first sep s' with
          | Some (before, rest) => Some (String c before, rest)
          | None => None
          end
      end
  end.

(** [s.split(sep, 1)] for a non-empty [sep]: at most one split, at the
    leftmost occurrence of [sep]; the whole string when there is none. *)
Definition split1 (s sep : string) : list string :=
  match partition_first sep s with
  | Some (before, rest) => [before; rest]
  | None => [s]
  end.

(** [a, b = xs]: unpacking into two targets raises [ValueError] unless
    [xs] has exactly two items. *)
Definition unpack2 (xs : list string) : outcome (string * string) :=
  match xs with
  | [a; b] => Return (a, b)
  | _ => Raise ValueError
  end.

(** [sep] occurs in [s]. *)
Definition occurs (sep s : string) : Prop :=
  exists p q, s = p +:+ sep +:+ q.

End PyStr.

(** ** Python floats: IEEE 754 binary64 *)

Module PyFloat.

Definition prec : Z := 53.
Definition emax : Z := 1024.

Definition float : Type := spec_float.

Definition add : float -> float -> float := SFadd prec emax.
Definition mul : float -> float -> float := SFmul prec emax.

Definition is_zero (x : float) : bool :=
  match x with S754_zero _ => true | _ => false end.

Definition is_finite (x : float) : bool :=
  match x with S754_zero _ | S754_finite _ _ _ => true | _ => false end.

(** [int] to [float]: the nearest double, ties to even; an [int] whose
    nearest double would be infinite raises [OverflowError]. *)
Definition of_int (n : Z) : outcome float :=
  match binary_normalize prec emax n 0 false with
  | S754_infinity _ => Raise OverflowError
  | x => Return x
  end.

(** [x / y] on floats: [ZeroDivisionError] when [y] is a zero. *)
Definition truediv (x y : float) : outcome float :=
  if is_zero y then Raise ZeroDivisionError else Return (SFdiv prec emax x y).

(** [math.sqrt] on a float: [ValueError] ("math domain error") below zero. *)
Definition sqrt (x : float) : outcome float :=
  match x with
  | S754_finite true _ _ | S754_infinity true => Raise ValueError
  | _ => Return (SFsqrt prec emax x)
  end.

(** [math.sqrt] applied to an [int]: the argument is converted first. *)
Definition math_sqrt (n : Z) : outcome float :=
  let! x := of_int n in sqrt x.

(** *** ["{:.3f}".format(x)] *)

(** The integer nearest to [n / d], ties to even, for [0 <= n], [0 < d]. *)
Definition round_half_even (n d : Z) : Z :=
  let q := n / d in
  let r := n mod d in
  match 2 * r ?= d with
  | Lt => q
  | Gt => q + 1
  | Eq => if Z.even q then q else q + 1
  end.

(** [|x| * 1000] rounded to an integer, for a finite non-zero [x = m * 2^e]. *)
Definition thousandths (m : positive) (e : Z) : Z :=
  match e with
  | Zneg p => round_half_even (Zpos m * 1000) (2 ^ Zpos p)
  | _ => Zpos m * 2 ^ e * 1000
  end.

Definition digit (d : Z) : ascii := ascii_of_N (48 + Z.to_N d).

Definition decimal (n : Z) : string := NilZero.string_of_uint (N.to_uint (Z.to_N n)).

(** The digits of [k / 1000] with three decimals. *)
Definition fixed3 (k : Z) : string :=
  decimal (k / 1000) +:+ "." +:+
  String (digit (k / 100 mod 10))
    (String (digit (k / 10 mod 10)) (String (digit (k mod 10)) EmptyString)).

Definition sign_prefix (s : bool) : string := if s then "-" else "".

Definition format_3f (x : float) : string :=
  match x with
  | S754_nan => "nan"
  | S754_infinity s => sign_prefix s +:+ "inf"
  | S754_zero s => sign_prefix s +:+ fixed3 0
  | S754_finite s m e => sign_prefix s +:+ fixed3 (thousandths m e)
  end.

Definition is_digit (c : ascii) : bool := PyStr.in_range 48 57 (N_of_ascii c).

Fixpoint all_digits (s : string) : bool :=
  match s with
  | EmptyString => true
  | String c s' => is_digit c && all_digits s'
  end.

(** A decimal rendering with exactly three digits after the point. *)
Definition three_decimals (s : string) : Prop :=
  exists sign int_part d1 d2 d3,
    s = sign_prefix sign +:+ int_part +:+ "." +:+ String d1 (String d2 (String d3 EmptyString))
    /\ int_part <> EmptyString
    /\ all_digits int_part = true
    /\ is_digit d1 = true /\ is_digit d2 = true /\ is_digit d3 = true.

End PyFloat.

(** ** The review store *)

(** [normalize_restaurant_name]: lowercase, then keep the alphanumeric
    characters. *)
Definition normalize_restaurant_name (restaurant_name : string) : string :=
  let normalized := PyStr.lower restaurant_name in
  let normalized := PyStr.join_filter PyStr.isalnum_char normalized in
  normalized.

(** The body of the loop of [fetch_restaurant_reviews_hash] for one line:
    split and unpack, normalize the name, create the entry when the name
    is new, append the review. *)
Definition add_line (reviews_hash : gmap string (list string)) (line : string)
  : outcome (gmap string (list string)) :=
  let! parts := PyStr.unpack2 (PyStr.split1 line ". ") in
  let review := parts.2 in
  let restaurant_name := normalize_restaurant_name parts.1 in
  let reviews_hash :=
    if decide (restaurant_name ∈ dom reviews_hash) then reviews_hash
    else <[restaurant_name := []]> reviews_hash in
  Return (<[restaurant_name := (reviews_hash !!! restaurant_name) ++ [review]]> reviews_hash).

Fixpoint load_lines (reviews_hash : gmap string (list string)) (lines : list string)
  : outcome (gmap string (list string)) :=
  match lines with
  | [] => Return reviews_hash
  | line :: rest =>
      let! reviews_hash := add_line reviews_hash line in
      load_lines reviews_hash rest
  end.

(** [fetch_restaurant_reviews_hash], as a function of the lines of
    ["./restaurant-data.txt"] (the result of [f.read().splitlines()]). *)
Definition fetch_restaurant_reviews_hash (lines : list string)
  : outcome (gmap string (list string)) :=
  load_lines ∅ lines.

(** [fetch_restaurant_data], with the module-level [restaurant_reviews_hash]
    as an explicit argument. *)
Definition fetch_restaurant_data (restaurant_reviews_hash : gmap string (list string))
    (restaurant_name : string) : gmap string (list string) :=
  let reviews :=
    default [] (restaurant_reviews_hash !! normalize_restaurant_name restaurant_name) in
  {[ restaurant_name := reviews ]}.

(** What the spec says of a loaded index: the reviews filed under [key] are
    the review texts, in file order, of the lines whose name part (the text
    before the leftmost ". ") normalizes to [key]. *)
Fixpoint reviews_in_file_order (key : string) (lines : list string) : list string :=
  match lines with
  | [] => []
  | line :: rest =>
      match PyStr.partition_first ". " line with
      | Some (name_part, review_text) =>
          if decide (normalize_restaurant_name name_part = key)
          then review_text :: reviews_in_file_order key rest
          else reviews_in_file_order key rest
      | None => reviews_in_file_order key rest
      end
  end.

(** A line's name part normalizes to [key]. *)
Definition line_has_key (key line : string) : Prop :=
  exists name_part review_text,
    PyStr.partition_first ". " line = Some (name_part, review_text)
    /\ normalize_restaurant_name name_part = key.

(** ** The scorer *)

(** [xs[i]] for [0 <= i]: [IndexError] past the end. *)
Definition getitem (xs : list Z) (i : nat) : outcome Z :=
  match xs !! i with
  | Some x => Return x
  | None => Raise IndexError
  end.

(** The [for i in range(N)] loop of [calculate_overall_score], over the
    indices still to visit. [total_score] starts as the [int] 0, which
    behaves as the float 0.0 in every operation applied to it here. *)
Fixpoint score_loop (food_scores customer_service_scores : list Z)
    (indices : list nat) (total_score : PyFloat.float) : outcome PyFloat.float :=
  match indices with
  | [] => Return total_score
  | i :: rest =>
      let! food_score := getitem food_scores i in
      let! service_score := getitem customer_service_scores i in
      let! root := PyFloat.math_sqrt (food_score ^ 2 * service_score) in
      score_loop food_scores customer_service_scores rest (PyFloat.add total_score root)
  end.

(** [calculate_overall_score]. In [total_score * 10] and
    [N * math.sqrt(125)] the [int] operand is converted to a float first. *)
Definition calculate_overall_score (restaurant_name : string)
    (food_scores customer_service_scores : list Z) : outcome (gmap string string) :=
  let N := length food_scores in
  let! total_score :=
    score_loop food_scores customer_service_scores (seq 0 N) (S754_zero false) in
  let! ten := PyFloat.of_int 10 in
  let! n := PyFloat.of_int (Z.of_nat N) in
  let! root125 := PyFloat.math_sqrt 125 in
  let! final_score :=
    PyFloat.truediv (PyFloat.mul total_score ten) (PyFloat.mul n root125) in
  let final_score := PyFloat.format_3f final_score in
  Return {[ restaurant_name := final_score ]}.

(** The value that [calculate_overall_score] stores under the restaurant
    name. *)
Definition formatted_score (food_scores customer_service_scores : list Z)
  : outcome string :=
  let N := length food_scores in
  let! total_score :=
    score_loop food_scores customer_service_scores (seq 0 N) (S754_zero false) in
  let! ten := PyFloat.of_int 10 in
  let! n := PyFloat.of_int (Z.of_nat N) in
  let! root125 := PyFloat.math_sqrt 125 in
  let! final_score :=
    PyFloat.truediv (PyFloat.mul total_score ten) (PyFloat.mul n root125) in
  Return (PyFloat.format_3f final_score).

(** What the spec says of the score: the sum over the pairs of
    [sqrt(food^2 * service)], times 10, divided by [N * sqrt(125)], in
    binary64, left to right. *)
Definition spec_term (scores : Z * Z) : outcome PyFloat.float :=
  PyFloat.math_sqrt (scores.1 ^ 2 * scores.2).

Fixpoint spec_sum (pairs : list (Z * Z)) (acc : PyFloat.float) : outcome PyFloat.float :=
  match pairs with
  | [] => Return acc
  | scores :: rest =>
      let! root := spec_term scores in
      spec_sum rest (PyFloat.add acc root)
  end.

Definition spec_score (food_scores customer_service_scores : list Z)
  : outcome PyFloat.float :=
  let! total := spec_sum (zip food_scores customer_service_scores) (S754_zero false) in
  let! ten := PyFloat.of_int 10 in
  let! n := PyFloat.of_int (Z.of_nat (length food_scores)) in
  let! root125 := PyFloat.math_sqrt 125 in
  PyFloat.truediv (PyFloat.mul total ten) (PyFloat.mul n root125).

(** [food_score ** 2 * service_score] is in the domain of [math.sqrt] on
    [int]s: it is not negative and it converts to a float. *)
Definition sqrt_defined (food_score service_score : Z) : Prop :=
  0 <= food_score ^ 2 * service_score
  /\ returns (PyFloat.of_int (food_score ^ 2 * service_score)).

(** [sqrt_defined] at every index that both lists have. *)
Definition all_sqrt_defined (food_scores customer_service_scores : list Z) : Prop :=
  forall (i : nat) (food_score service_score : Z),
    food_scores !! i = Some food_score ->
    customer_service_scores !! i = Some service_score ->
    sqrt_defined food_score service_score.

(** [sys.maxsize] on a 64-bit build: no list is longer. *)
Definition sys_maxsize : Z := 2 ^ 63 - 1.

(** ** Bounds on non-negative floats

    Values are compared as integers after scaling by [2^1074], the inverse
    of the smallest positive double. *)

(** Mantissa and exponent of a positive normal double. *)
Definition positive_normal (m : positive) (e : Z) : Prop :=
  -1074 <= e /\ -1021 <= Zdigits2 (Zpos m) + e /\ Zdigits2 (Zpos m) <= 53.

(** [x] is [+0.0], or a positive normal double with [x <= 2^567]. *)
Definition sum_bounded (x : PyFloat.float) : Prop :=
  x = S754_zero false \/
  exists m e, x = S754_finite false m e /\ positive_normal m e
    /\ Zpos m * 2 ^ (e + 1074) <= 2 ^ (567 + 1074).

(** [x] is [+0.0], or a positive normal double with [x < 2^513]. *)
Definition root_bounded (x : PyFloat.float) : Prop :=
  x = S754_zero false \/
  exists m e, x = S754_finite false m e /\ positive_normal m e
    /\ Zdigits2 (Zpos m) + e <= 513.

(** ** The coordinator *)

Inductive agent : Type :=
| entrypoint_agent
| data_fetch_agent
| review_analysis_agent
| scoring_agent.

Inductive summary_method_t : Type :=
| last_msg
| reflection_with_llm.

(** One entry of the list given to [initiate_chats]. *)
Record chat : Type := {
  recipient : agent;
  message : string;
  max_turns : nat;
  summary_method : summary_method_t
}.

(** The argument of [initiate_chats] in [main]. *)
Definition chat_queue (user_query : string) : list chat :=
  [ {| recipient := data_fetch_agent;
       message := "Query: " +:+ user_query;
       max_turns := 2;
       summary_method := last_msg |};
    {| recipient := review_analysis_agent;
       message := "Here are the reviews";
       max_turns := 2;
       summary_method := last_msg |};
    {| recipient := scoring_agent;
       message := "Here are the scores";
       max_turns := 2;
       summary_method := last_msg |} ].

Section Coordinator.
(** The conversational runtime is an external collaborator: the result
    type of a run and [initiate_chats] itself are left abstract. *)
Context {chat_results : Type}.
Variable initiate_chats : agent -> list chat -> chat_results.

Definition main (user_query : string) : chat_results :=
  let result := initiate_chats entrypoint_agent (chat_queue user_query) in
  result.
End Coordinator.

(** ** The conversational runtime *)

Module ChatRuntime.

(** The conversational runtime behind [initiate_chats] (the [autogen]
    package) is missing from the sources. The spec describes it as a
    strictly linear sequence of stages; a stage opens with its fixed
    message, allows its collaborator at most a turn budget of
    request/response exchanges, ends when the collaborator signals
    completion or the budget is exhausted, and its summary, the content of
    the last message of the exchange, becomes the context of the next
    stage. The coordinator returns the ordered sequence of the per-stage
    results. What the agents say is left to the collaborators. *)

(** Modelled from the spec: a turn of the missing runtime, one
    request/response exchange: the initiator's request and the recipient's
    response, if it gave one. *)
Record turn : Type := {
  request : string;
  response : option string
}.

(** Modelled from the spec: the messages of a turn of the missing runtime,
    in the order they were sent. *)
Definition turn_messages (t : turn) : list string :=
  request t :: match response t with Some answer => [answer] | None => [] end.

(** Modelled from the spec: what a stage of the missing runtime leaves
    behind. *)
Record stage_result : Type := {
  stage_initiator : agent;
  stage_recipient : agent;
  stage_context : option string;
  turns : list turn;
  summary : string
}.

(** Modelled from the spec: the contents of the messages of a stage of the
    missing runtime, in the order they were sent. *)
Definition stage_messages (st : stage_result) : list string :=
  concat (map turn_messages (turns st)).

Section Collaborators.
(** [respond recipient context done request]: the recipient's response to
    [request] after the exchanges [done]; [None] when it has none. *)
Variable respond : agent -> option string -> list turn -> string -> option string.
(** [follow_up initiator recipient done]: the initiator's next request;
    [None] when the exchange is complete. *)
Variable follow_up : agent -> agent -> list turn -> option string.
(** The summary of an exchange by reflection, a model-backed step. *)
Variable reflect : list turn -> string.

(** Modelled from the spec: the exchange loop of one stage of the missing
    runtime, with [budget] turns left. It ends when the budget is
    exhausted, when the recipient gives no response, or when the initiator
    has no further request. *)
Fixpoint exchange (initiator recipient : agent) (context : option string)
    (budget : nat) (next_request : string) (done : list turn) : list turn :=
  match budget with
  | O => done
  | S budget' =>
      match respond recipient context done next_request with
      | None => done ++ [ {| request := next_request; response := None |} ]
      | Some answer =>
          let done' := done ++ [ {| request := next_request; response := Some answer |} ] in
          match follow_up initiator recipient done' with
          | None => done'
          | Some request' => exchange initiator recipient context budget' request' done'
          end
      end
  end.

(** Modelled from the spec: the summary the missing runtime takes of an
    exchange; for [last_msg], the content of its last message. *)
Definition summarize (method : summary_method_t) (exchanges : list turn) : string :=
  match method with
  | last_msg => default ""%string (last (concat (map turn_messages exchanges)))
  | reflection_with_llm => reflect exchanges
  end.

(** Modelled from the spec: one stage of the missing runtime. It opens
    with the chat's message and is bounded by the chat's turn budget. *)
Definition run_stage (initiator : agent) (context : option string) (c : chat)
  : stage_result :=
  let exchanges := exchange initiator (recipient c) context (max_turns c) (message c) [] in
  {| stage_initiator := initiator;
     stage_recipient := recipient c;
     stage_context := context;
     turns := exchanges;
     summary := summarize (summary_method c) exchanges |}.

(** Modelled from the spec: the missing runtime runs the stages one after
    the other, each to completion before the next, and hands each summary
    to the next stage. *)
Fixpoint run_chats (initiator : agent) (context : option string) (queue : list chat)
  : list stage_result :=
  match queue with
  | [] => []
  | c :: rest =>
      let st := run_stage initiator context c in
      st :: run_chats initiator (Some (summary st)) rest
  end.

(** Modelled from the spec: [initiate_chats] of the missing runtime; it
    returns the ordered sequence of the per-stage results. *)
Definition initiate_chats (initiator : agent) (queue : list chat) : list stage_result :=
  run_chats initiator None queue.

End Collaborators.

End ChatRuntime.

(** ** Prompts and wiring of [main] *)

Definition get_data_fetch_agent_prompt : string :=
  "Identify the restaurant name from the given query and fetch the reviews for that restaurant using the fetch_restaurant_data function. Return the raw JSON results only.".

Definition review_scoring_format : string :=
  "food_score = x, customer_service_score = y".

Definition get_review_analysis_agent_prompt : string :=
  let scoring_format := review_scoring_format in
  "Your are given a restaurant name and restaurant reviews. Extract the food score and customer service score for each review. The food score is a number between 1 and 5, and the customer service score is a number between 1 and 5. The food score is determined by the adjectives associated with the food, and the customer service score is determined by the adjectives associated with the customer service. Score 1/5 has one of these adjectives: awful, horrible, or disgusting. Score 2/5 has one of these adjectives: bad, unpleasant, or offensive. Score 3/5 has one of these adjectives: average, uninspiring, or forgettable. Score 4/5 has one of these adjectives: good, enjoyable, or satisfying. Score 5/5 has one of these adjectives: awesome, incredible, or amazing. Answer strictly with the following format, one line per review: `"
  +:+ scoring_format +:+ "`.".

Definition get_scoring_agent_prompt : string :=
  let scoring_format := review_scoring_format in
  "Your are given a restaurant name and scores for the food and the customer service reviews, in the following format: `"
  +:+ scoring_format
  +:+ "`. Extract the food_scores and the customer_service_scores, then use the function `calculate_overall_score` and return the result only. Make sure that there are as many food scores than custoemr service scores.".

Definition entrypoint_agent_system_message : string :=
  "You must execute the functions and return the response.".

(** The [system_message] each [ConversableAgent] of [main] is built with. *)
Definition system_message (a : agent) : string :=
  match a with
  | entrypoint_agent => entrypoint_agent_system_message
  | data_fetch_agent => get_data_fetch_agent_prompt
  | review_analysis_agent => get_review_analysis_agent_prompt
  | scoring_agent => get_scoring_agent_prompt
  end.

(** One [register_for_llm] or [register_for_execution] call: the agent it
    is made on and the [name] it registers. *)
Record registration : Type := {
  registered_agent : agent;
  tool_name : string
}.

(** The [register_for_llm] calls of [main], in order. *)
Definition registered_for_llm : list registration :=
  [ {| registered_agent := data_fetch_agent; tool_name := "fetch_restaurant_data" |};
    {| registered_agent := scoring_agent; tool_name := "calculate_overall_score" |} ].

(** The [register_for_execution] calls of [main], in order. *)
Definition registered_for_execution : list registration :=
  [ {| registered_agent := entrypoint_agent; tool_name := "fetch_restaurant_data" |};
    {| registered_agent := entrypoint_agent; tool_name := "calculate_overall_score" |} ].

(** ** The script

    Running the file as a script first executes the module body, which
    loads the corpus into [restaurant_reviews_hash], and then the
    [__main__] block. *)

Inductive script_result (R : Type) : Type :=
| ModuleRaised (e : exception)
| AssertionError (message : string)
| Finished (result : R).

Arguments ModuleRaised {R} e.
Arguments AssertionError {R} message.
Arguments Finished {R} result.

Definition usage_message : string :=
  "Please ensure you include a query for some restaurant when executing main.".

Section Script.
Context {chat_results : Type}.
Variable initiate_chats : agent -> list chat -> chat_results.

(** [lines] are the lines of the corpus file, [argv] is [sys.argv]. *)
Definition run_script (lines argv : list string) : script_result chat_results :=
  match fetch_restaurant_reviews_hash lines with
  | Raise e => ModuleRaised e
  | Return restaurant_reviews_hash =>
      if decide (1 < length argv)%nat
      then match argv !! 1%nat with
           | Some user_query => Finished (main initiate_chats user_query)
           | None => ModuleRaised IndexError
           end
      else AssertionError usage_message
  end.
End Script.

(** ** Vocabulary of the further properties *)

Fixpoint all_chars (p : ascii -> bool) (s : string) : bool :=
  match s with
  | EmptyString => true
  | String c s' => p c && all_chars p s'
  end.

(** The number of reviews an index holds, over all its keys. *)
Definition review_count (idx : gmap string (list string)) : nat :=
  map_fold (fun _ reviews n => (length reviews + n)%nat) 0%nat idx.

(** Digits, a point and three digits: no sign, no exponent. *)
Definition unsigned_three_decimals (s : string) : Prop :=
  exists int_part d1 d2 d3,
    s = int_part +:+ "." +:+ String d1 (String d2 (String d3 EmptyString))
    /\ int_part <> EmptyString
    /\ PyFloat.all_digits int_part = true
    /\ PyFloat.is_digit d1 = true /\ PyFloat.is_digit d2 = true
    /\ PyFloat.is_digit d3 = true.

(** * Properties *)

(** ** Strings *)

Section StringFacts.
Import PyStr.

Lemma append_nil (s : string) : "" +:+ s = s.
Proof. reflexivity. Qed.

Lemma append_cons (c : ascii) (s t : string) : String c s +:+ t = String c (s +:+ t).
Proof. reflexivity. Qed.

Lemma strip_prefix_spec (pre s rest : string) :
  strip_prefix pre s = Some rest <-> s = pre +:+ rest.
Proof.
  revert s. induction pre as [|a pre IH]; intros s; simpl.
  - rewrite append_nil. split; [intros [= ->]; reflexivity | intros ->; reflexivity].
  - rewrite append_cons. destruct s as [|b s]; [split; discriminate|].
    destruct (Ascii.eqb_spec a b) as [->|Hne].
    + rewrite IH. split; [intros ->; reflexivity | intros [= ->]; reflexivity].
    + split; [discriminate | intros [= Hab _]; congruence].
Qed.

Lemma partition_first_unfold (sep s : string) :
  partition_first sep s =
  match strip_prefix sep s with
  | Some rest => Some (EmptyString, rest)
  | None =>
      match s with
      | EmptyString => None
      | String c s' =>
          match partition_first sep s' with
          | Some (before, rest) => Some (String c before, rest)
          | None => None
          end
      end
  end.
Proof. destruct s; reflexivity. Qed.

(** [partition_first] cuts at an occurrence of the separator, and no
    occurrence starts further left. *)
Lemma partition_first_Some (sep s before rest : string) :
  partition_first sep s = Some (before, rest) ->
  s = before +:+ sep +:+ rest
  /\ forall p q, s = p +:+ sep +:+ q -> (String.length before <= String.length p)%nat.
Proof.
  revert before. induction s as [|c s IH]; intros before;
    rewrite partition_first_unfold;
    destruct (strip_prefix sep _) as [r|] eqn:Hpre.
  - intros [= <- <-]. apply strip_prefix_spec in Hpre.
    split; [exact Hpre | intros; simpl; lia].
  - discriminate.
  - intros [= <- <-]. apply strip_prefix_spec in Hpre.
    split; [exact Hpre | intros; simpl; lia].
  - destruct (partition_first sep s) as [[b r]|] eqn:Hrec; [|discriminate].
    intros [= <- <-]. destruct (IH b eq_refl) as [Hs Hmin].
    split; [rewrite append_cons; f_equal; exact Hs|].
    intros [|c' p] q Hpq; [rewrite append_nil in Hpq | rewrite append_cons in Hpq].
    + apply strip_prefix_spec in Hpq. congruence.
    + injection Hpq as _ Hpq. specialize (Hmin _ _ Hpq). simpl. lia.
Qed.

Lemma partition_first_None (sep s : string) :
  partition_first sep s = None <-> ~ occurs sep s.
Proof.
  split.
  - induction s as [|c s IH]; rewrite partition_first_unfold;
      destruct (strip_prefix sep _) as [r|] eqn:Hpre; try discriminate.
    + intros _ ([|c p] & q & Hpq);
        [rewrite append_nil in Hpq | rewrite append_cons in Hpq; discriminate].
      apply strip_prefix_spec in Hpq. congruence.
    + destruct (partition_first sep s) as [[b r]|] eqn:Hrec; [discriminate|].
      intros _ ([|c' p] & q & Hpq);
        [rewrite append_nil in Hpq | rewrite append_cons in Hpq].
      * apply strip_prefix_spec in Hpq. congruence.
      * injection Hpq as _ Hpq. apply IH; [reflexivity|]. exists p, q. exact Hpq.
  - intros Hno. destruct (partition_first sep s) as [[b r]|] eqn:Hp; [|reflexivity].
    exfalso. apply Hno. exists b, r. apply (partition_first_Some _ _ _ _ Hp).
Qed.

Lemma partition_first_occurs (sep s : string) :
  occurs sep s -> exists before rest, partition_first sep s = Some (before, rest).
Proof.
  intros Hocc. destruct (partition_first sep s) as [[b r]|] eqn:Hp; [eauto|].
  apply partition_first_None in Hp. contradiction.
Qed.

Lemma lower_char_idem (c : ascii) : lower_char (lower_char c) = lower_char c.
Proof. destruct c as [[] [] [] [] [] [] [] []]; reflexivity. Qed.

Lemma normalize_cons (c : ascii) (s : string) :
  normalize_restaurant_name (String c s) =
  if isalnum_char (lower_char c)
  then String (lower_char c) (normalize_restaurant_name s)
  else normalize_restaurant_name s.
Proof. reflexivity. Qed.

End StringFacts.

(** C6. Name normalization is a total function and is idempotent:
    normalizing a normalized name changes nothing, also when the result is
    the empty string; "Applebee's", "APPLEBEES" and "applebees" have the
    same normal form. *)
Theorem normalize_idempotent :
  (forall x : string,
     normalize_restaurant_name (normalize_restaurant_name x) = normalize_restaurant_name x)
  /\ normalize_restaurant_name "Applebee's" = normalize_restaurant_name "APPLEBEES"
  /\ normalize_restaurant_name "APPLEBEES" = normalize_restaurant_name "applebees"
  /\ normalize_restaurant_name "applebees" = "applebees"%string
  /\ normalize_restaurant_name "'. -" = ""%string
  /\ normalize_restaurant_name "" = ""%string.
Proof.
  split; [|repeat split; reflexivity].
  induction x as [|c x IH]; [reflexivity|].
  rewrite normalize_cons.
  destruct (PyStr.isalnum_char (PyStr.lower_char c)) eqn:Halnum; [|exact IH].
  rewrite normalize_cons, lower_char_idem, Halnum, IH. reflexivity.
Qed.

(** ** The review store *)

Section StoreFacts.
Import PyStr.
Implicit Types (h idx : gmap string (list string)) (lines : list string).

Lemma add_line_split h line name_part review_text :
  partition_first ". " line = Some (name_part, review_text) ->
  exists h', add_line h line = Return h'
    /\ forall key, h' !! key =
         if decide (key = normalize_restaurant_name name_part)
         then Some (default [] (h !! key) ++ [review_text])
         else h !! key.
Proof.
  intros Hsplit. unfold add_line, split1. rewrite Hsplit. simpl.
  eexists; split; [reflexivity|]. intros key.
  set (k := normalize_restaurant_name name_part).
  destruct (decide (key = k)) as [->|Hne].
  - rewrite lookup_insert_eq. f_equal. f_equal.
    rewrite lookup_total_alt. destruct (decide (k ∈ dom h)) as [Hin|Hout].
    + reflexivity.
    + rewrite lookup_insert_eq. apply not_elem_of_dom in Hout. rewrite Hout. reflexivity.
  - rewrite lookup_insert_ne by congruence.
    destruct (decide (k ∈ dom h)); [reflexivity|].
    rewrite lookup_insert_ne by congruence. reflexivity.
Qed.

Lemma add_line_no_delimiter h line :
  partition_first ". " line = None -> add_line h line = Raise ValueError.
Proof. intros Hsplit. unfold add_line, split1. rewrite Hsplit. reflexivity. Qed.

(** The only exception that loading can raise is the [ValueError] of
    the unpacking. *)
Lemma load_lines_raises_ValueError h lines e :
  load_lines h lines = Raise e -> e = ValueError.
Proof.
  revert h. induction lines as [|line rest IH]; intros h; simpl; [discriminate|].
  destruct (partition_first ". " line) as [[n r]|] eqn:Hsplit.
  - destruct (add_line_split h _ _ _ Hsplit) as (h' & -> & _). simpl. apply IH.
  - rewrite (add_line_no_delimiter _ _ Hsplit). simpl. congruence.
Qed.

Lemma load_lines_bad_line h lines :
  (exists line, line ∈ lines /\ ~ occurs ". " line) ->
  load_lines h lines = Raise ValueError.
Proof.
  intros (bad & Hin & Hbad). revert h.
  induction lines as [|line rest IH]; intros h; [inversion Hin|]. simpl.
  destruct (partition_first ". " line) as [[n r]|] eqn:Hsplit.
  - destruct (add_line_split h _ _ _ Hsplit) as (h' & -> & _). simpl.
    apply IH. apply elem_of_cons in Hin as [->|Hin]; [|exact Hin].
    apply partition_first_None in Hbad. congruence.
  - rewrite (add_line_no_delimiter _ _ Hsplit). reflexivity.
Qed.

Lemma load_lines_well_formed h lines :
  Forall (occurs ". ") lines ->
  exists idx, load_lines h lines = Return idx
    /\ forall key, idx !! key =
         match reviews_in_file_order key lines with
         | [] => h !! key
         | reviews => Some (default [] (h !! key) ++ reviews)
         end.
Proof.
  intros Hall. revert h. induction Hall as [|line rest Hocc _ IH]; intros h.
  - exists h. split; reflexivity.
  - destruct (partition_first_occurs _ _ Hocc) as (n & r & Hsplit).
    destruct (add_line_split h _ _ _ Hsplit) as (h' & Hadd & Hh').
    destruct (IH h') as (idx & Hload & Hidx).
    exists idx. split; [simpl; rewrite Hadd; exact Hload|].
    intros key. rewrite Hidx, Hh'. simpl. rewrite Hsplit.
    destruct (decide (normalize_restaurant_name n = key)) as [<-|Hne].
    + rewrite decide_True by reflexivity. simpl.
      destruct (reviews_in_file_order _ rest); [reflexivity|].
      rewrite <- app_assoc. reflexivity.
    + rewrite decide_False by congruence. reflexivity.
Qed.

Lemma reviews_in_file_order_app key lines1 lines2 :
  reviews_in_file_order key (lines1 ++ lines2) =
  reviews_in_file_order key lines1 ++ reviews_in_file_order key lines2.
Proof.
  induction lines1 as [|line rest IH]; [reflexivity|]. simpl.
  destruct (partition_first ". " line) as [[n r]|]; [|exact IH].
  destruct (decide _); [simpl; f_equal|]; exact IH.
Qed.

Lemma reviews_in_file_order_none key lines :
  (forall line, line ∈ lines -> ~ line_has_key key line) ->
  reviews_in_file_order key lines = [].
Proof.
  induction lines as [|line rest IH]; intros Hno; [reflexivity|]. simpl.
  assert (Hrest : reviews_in_file_order key rest = []).
  { apply IH. intros l Hl. apply Hno. right. exact Hl. }
  destruct (partition_first ". " line) as [[n r]|] eqn:Hsplit; [|exact Hrest].
  destruct (decide _) as [Hkey|]; [|exact Hrest].
  exfalso. apply (Hno line); [left|]. exists n, r. split; assumption.
Qed.

Lemma reviews_in_file_order_elem key lines line name_part review_text :
  line ∈ lines ->
  partition_first ". " line = Some (name_part, review_text) ->
  normalize_restaurant_name name_part = key ->
  review_text ∈ reviews_in_file_order key lines.
Proof.
  intros Hin Hsplit Hkey. induction lines as [|l rest IH]; [inversion Hin|].
  simpl. apply elem_of_cons in Hin as [<-|Hin].
  - rewrite Hsplit, decide_True by exact Hkey. left.
  - specialize (IH Hin). destruct (partition_first ". " l) as [[n r]|]; [|exact IH].
    destruct (decide _); [right|]; exact IH.
Qed.

Lemma fetch_restaurant_data_loaded lines idx name :
  fetch_restaurant_reviews_hash lines = Return idx ->
  Forall (occurs ". ") lines ->
  fetch_restaurant_data idx name =
  {[ name := reviews_in_file_order (normalize_restaurant_name name) lines ]}.
Proof.
  intros Hload Hall. unfold fetch_restaurant_data. f_equal.
  destruct (load_lines_well_formed ∅ lines Hall) as (idx' & Hload' & Hidx).
  unfold fetch_restaurant_reviews_hash in Hload. rewrite Hload in Hload'.
  injection Hload' as <-. rewrite Hidx, lookup_empty.
  destruct (reviews_in_file_order _ lines); reflexivity.
Qed.

End StoreFacts.

(** C3. Round trip through the store. A corpus whose lines all contain the
    delimiter ". " loads; every line is cut at the leftmost ". " and its
    review text is filed, in file order, under the normalized name part;
    [fetch_restaurant_data] answers with those reviews. In particular, when
    "Pasta Place. Great food." is the only line whose name normalizes to
    "pastaplace", fetching "Pasta Place" gives exactly
    {"Pasta Place": ["Great food."]}. *)
Theorem load_fetch_round_trip (lines : list string) :
  Forall (PyStr.occurs ". ") lines ->
  exists idx,
    fetch_restaurant_reviews_hash lines = Return idx
    /\ (forall line, line ∈ lines ->
          exists name_part review_text,
            line = name_part +:+ ". " +:+ review_text
            /\ (forall p q, line = p +:+ ". " +:+ q ->
                  (String.length name_part <= String.length p)%nat)
            /\ review_text ∈ default [] (idx !! normalize_restaurant_name name_part))
    /\ (forall key,
          idx !! key =
          match reviews_in_file_order key lines with
          | [] => None
          | reviews => Some reviews
          end)
    /\ (forall name,
          fetch_restaurant_data idx name =
          {[ name := reviews_in_file_order (normalize_restaurant_name name) lines ]})
    /\ (forall before after,
          lines = before ++ "Pasta Place. Great food."%string :: after ->
          (forall line, line ∈ before ++ after -> ~ line_has_key "pastaplace" line) ->
          fetch_restaurant_data idx "Pasta Place" =
          {[ "Pasta Place"%string := ["Great food."%string] ]}).
Proof.
  intros Hall.
  destruct (load_lines_well_formed ∅ lines Hall) as (idx & Hload & Hidx).
  assert (Hkeys : forall key, idx !! key =
            match reviews_in_file_order key lines with
            | [] => None
            | reviews => Some reviews
            end).
  { intros key. rewrite Hidx, lookup_empty.
    destruct (reviews_in_file_order key lines); reflexivity. }
  exists idx. split; [exact Hload|]. split; [|split; [exact Hkeys|split]].
  - intros line Hin.
    pose proof (proj1 (Forall_forall _ _) Hall line Hin) as Hocc.
    destruct (partition_first_occurs _ _ Hocc) as (n & r & Hsplit).
    destruct (partition_first_Some _ _ _ _ Hsplit) as [Hcut Hleft].
    exists n, r. split; [exact Hcut|]. split; [exact Hleft|].
    pose proof (reviews_in_file_order_elem _ _ _ _ _ Hin Hsplit eq_refl) as Hr.
    rewrite Hkeys. destruct (reviews_in_file_order _ lines); [inversion Hr|exact Hr].
  - intros name. apply (fetch_restaurant_data_loaded lines); assumption.
  - intros before after -> Hothers.
    rewrite (fetch_restaurant_data_loaded _ idx _ Hload Hall).
    rewrite reviews_in_file_order_app. simpl reviews_in_file_order.
    rewrite !reviews_in_file_order_none; [reflexivity| |];
      intros line Hin; apply Hothers; set_solver.
Qed.

Lemma load_fetch_round_trip_witness :
  exists idx,
    fetch_restaurant_reviews_hash
      ["Applebee's. Average."%string; "Pasta Place. Great food."%string] = Return idx
    /\ fetch_restaurant_data idx "Pasta Place" =
       {[ "Pasta Place"%string := ["Great food."%string] ]}.
Proof.
  destruct (load_fetch_round_trip
              ["Applebee's. Average."%string; "Pasta Place. Great food."%string])
    as (idx & Hload & _ & _ & _ & Hpasta).
  - repeat constructor.
    + exists "Applebee's"%string, "Average."%string. reflexivity.
    + exists "Pasta Place"%string, "Great food."%string. reflexivity.
  - exists idx. split; [exact Hload|].
    apply (Hpasta ["Applebee's. Average."%string] []); [reflexivity|].
    intros line Hin (n & r & Hsplit & Hkey).
    apply list_elem_of_singleton in Hin. subst line.
    injection Hsplit as <- <-. discriminate Hkey.
Defined.

(** C4. [fetch_restaurant_data] never fails; its result has the queried
    name, verbatim, as its only key, and the value is what the index holds
    under the normalized name, or the empty list when the index has no
    such key. *)
Theorem fetch_restaurant_data_echoes_name
    (idx : gmap string (list string)) (restaurant_name : string) :
  dom (fetch_restaurant_data idx restaurant_name) = ({[ restaurant_name ]} : gset string)
  /\ fetch_restaurant_data idx restaurant_name !! restaurant_name =
     Some (default [] (idx !! normalize_restaurant_name restaurant_name))
  /\ (forall reviews,
        idx !! normalize_restaurant_name restaurant_name = Some reviews ->
        fetch_restaurant_data idx restaurant_name = {[ restaurant_name := reviews ]})
  /\ (idx !! normalize_restaurant_name restaurant_name = None ->
        fetch_restaurant_data idx restaurant_name = {[ restaurant_name := [] ]})
  /\ (forall reviews,
        idx !! "applebees"%string = Some reviews ->
        fetch_restaurant_data idx "Applebee'S" = {[ "Applebee'S"%string := reviews ]})
  /\ (idx !! "nowhere"%string = None ->
        fetch_restaurant_data idx "Nowhere" = {[ "Nowhere"%string := [] ]}).
Proof.
  unfold fetch_restaurant_data. repeat split.
  - apply dom_singleton_L.
  - apply lookup_singleton_eq.
  - intros reviews ->. reflexivity.
  - intros ->. reflexivity.
  - intros reviews Hidx. change (normalize_restaurant_name "Applebee'S") with "applebees"%string.
    rewrite Hidx. reflexivity.
  - intros Hidx. change (normalize_restaurant_name "Nowhere") with "nowhere"%string.
    rewrite Hidx. reflexivity.
Qed.

(** C5, as stated, fails: a corpus with a line that lacks ". " does make
    loading fail, but the exception is not a [MalformedLineError]. *)
Lemma load_failure_is_not_MalformedLineError :
  (exists line,
     line ∈ ["Pasta Place. Great food."%string; "no delimiter here"%string]
     /\ ~ PyStr.occurs ". " line)
  /\ fetch_restaurant_reviews_hash
       ["Pasta Place. Great food."%string; "no delimiter here"%string]
     = Raise ValueError
  /\ ~ raises_named
        (fetch_restaurant_reviews_hash
           ["Pasta Place. Great food."%string; "no delimiter here"%string])
        "MalformedLineError".
Proof.
  split; [|split].
  - exists "no delimiter here"%string. split; [set_solver|].
    apply partition_first_None. reflexivity.
  - reflexivity.
  - intros (e & Hraise & Hname). injection Hraise as <-. discriminate Hname.
Qed.

(** C5, amended. A corpus with at least one line that lacks the delimiter
    ". " does not load: [fetch_restaurant_reviews_hash] raises [ValueError]
    (from unpacking the one-element result of [split]) and no index, partial
    or not, is returned. *)
Theorem load_fails_on_line_without_delimiter (lines : list string) :
  (exists line, line ∈ lines /\ ~ PyStr.occurs ". " line) ->
  fetch_restaurant_reviews_hash lines = Raise ValueError
  /\ ~ returns (fetch_restaurant_reviews_hash lines).
Proof.
  intros Hbad. pose proof (load_lines_bad_line ∅ lines Hbad) as Hload.
  unfold fetch_restaurant_reviews_hash. rewrite Hload.
  split; [reflexivity | intros [idx Hidx]; discriminate].
Qed.

Lemma load_fails_on_line_without_delimiter_witness :
  fetch_restaurant_reviews_hash
    ["Pasta Place. Great food."%string; "no delimiter here"%string] = Raise ValueError
  /\ ~ returns (fetch_restaurant_reviews_hash
                  ["Pasta Place. Great food."%string; "no delimiter here"%string]).
Proof.
  apply (load_fails_on_line_without_delimiter
           ["Pasta Place. Great food."%string; "no delimiter here"%string]).
  exists "no delimiter here"%string. split.
  - right. left.
  - apply partition_first_None. reflexivity.
Defined.

(** ** The scoring loop *)

Section LoopFacts.
Implicit Types (food cs before_f before_c : list Z) (acc : PyFloat.float).

Lemma getitem_middle (before : list Z) (x : Z) (after : list Z) (i : nat) :
  i = length before -> getitem (before ++ x :: after) i = Return x.
Proof. intros ->. unfold getitem. rewrite list_lookup_middle; reflexivity. Qed.

Lemma getitem_past_end (xs : list Z) (i : nat) :
  (length xs <= i)%nat -> getitem xs i = Raise IndexError.
Proof. intros Hi. unfold getitem. rewrite lookup_ge_None_2; [reflexivity | exact Hi]. Qed.

(** While both lists have an item at every index visited, the loop is
    the left-to-right sum over the zipped pairs. *)
Lemma score_loop_zip food : forall before_f before_c cs acc,
  length before_f = length before_c ->
  (length food <= length cs)%nat ->
  score_loop (before_f ++ food) (before_c ++ cs)
    (seq (length before_f) (length food)) acc
  = spec_sum (zip food cs) acc.
Proof.
  induction food as [|f food IH]; intros before_f before_c cs acc Hlen Hle;
    [reflexivity|].
  destruct cs as [|c cs]; [simpl in Hle; lia|].
  cbn [length seq score_loop].
  rewrite (getitem_middle before_f), (getitem_middle before_c) by congruence.
  cbn [bind zip_with spec_sum]. unfold spec_term. cbn [fst snd].
  destruct (PyFloat.math_sqrt (f ^ 2 * c)) as [root|e]; [|reflexivity].
  cbn [bind].
  rewrite (cons_middle f before_f food), (cons_middle c before_c cs), !app_assoc.
  replace (S (length before_f)) with (length (before_f ++ [f]))
    by (rewrite length_app; simpl; lia).
  apply IH; [rewrite !length_app; simpl; lia | simpl in Hle; lia].
Qed.

(** When the customer-service list is the shorter one, the loop sums the
    pairs that exist and then fails on the first missing index. *)
Lemma score_loop_short food : forall before_f before_c cs acc,
  length before_f = length before_c ->
  (length cs < length food)%nat ->
  score_loop (before_f ++ food) (before_c ++ cs)
    (seq (length before_f) (length food)) acc
  = let! total := spec_sum (zip food cs) acc in Raise IndexError.
Proof.
  induction food as [|f food IH]; intros before_f before_c cs acc Hlen Hlt;
    [simpl in Hlt; lia|].
  cbn [length seq score_loop]. rewrite (getitem_middle before_f) by congruence.
  cbn [bind].
  destruct cs as [|c cs].
  - rewrite getitem_past_end by (rewrite length_app; simpl; lia). reflexivity.
  - rewrite (getitem_middle before_c) by congruence.
    cbn [bind zip_with spec_sum]. unfold spec_term. cbn [fst snd].
    destruct (PyFloat.math_sqrt (f ^ 2 * c)) as [root|e]; [|reflexivity].
    cbn [bind].
    rewrite (cons_middle f before_f food), (cons_middle c before_c cs), !app_assoc.
    replace (S (length before_f)) with (length (before_f ++ [f]))
      by (rewrite length_app; simpl; lia).
    apply IH; [rewrite !length_app; simpl; lia | simpl in Hlt; lia].
Qed.

Lemma calculate_overall_score_unfold (name : string) food cs :
  calculate_overall_score name food cs =
  let! final_score := formatted_score food cs in Return {[ name := final_score ]}.
Proof.
  unfold calculate_overall_score, formatted_score.
  destruct (score_loop _ _ _ _) as [total|e]; [|reflexivity]. cbn [bind].
  destruct (PyFloat.of_int 10) as [ten|e]; [|reflexivity]. cbn [bind].
  destruct (PyFloat.of_int _) as [n|e]; [|reflexivity]. cbn [bind].
  destruct (PyFloat.math_sqrt 125) as [root125|e]; [|reflexivity]. cbn [bind].
  destruct (PyFloat.truediv _ _); reflexivity.
Qed.

(** The loop refines the spec's formula whenever no index is missing. *)
Lemma formatted_score_spec food cs :
  (length food <= length cs)%nat ->
  formatted_score food cs =
  let! final_score := spec_score food cs in Return (PyFloat.format_3f final_score).
Proof.
  intros Hle. unfold formatted_score, spec_score.
  rewrite (score_loop_zip food [] [] cs _ eq_refl Hle).
  destruct (spec_sum _ _) as [total|e]; [|reflexivity]. cbn [bind].
  destruct (PyFloat.of_int 10) as [ten|e]; [|reflexivity]. cbn [bind].
  destruct (PyFloat.of_int _) as [n|e]; [|reflexivity]. cbn [bind].
  destruct (PyFloat.math_sqrt 125) as [root125|e]; [|reflexivity]. cbn [bind].
  destruct (PyFloat.truediv _ _); reflexivity.
Qed.

Lemma formatted_score_short food cs :
  (length cs < length food)%nat ->
  formatted_score food cs =
  let! total := spec_sum (zip food cs) (S754_zero false) in Raise IndexError.
Proof.
  intros Hlt. unfold formatted_score.
  rewrite (score_loop_short food [] [] cs _ eq_refl Hlt).
  destruct (spec_sum _ _); reflexivity.
Qed.

Lemma formatted_score_empty cs : formatted_score [] cs = Raise ZeroDivisionError.
Proof. reflexivity. Qed.

Lemma spec_score_truncate food cs :
  spec_score food (take (length food) cs) = spec_score food cs.
Proof. unfold spec_score. rewrite zip_with_take_r. reflexivity. Qed.

End LoopFacts.

(** ** Floats: magnitudes under rounding *)

Section FloatFacts.

Lemma iter_pos_nat {A : Type} (f : A -> A) (p : positive) : forall x,
  SpecFloat.iter_pos f p x = Nat.iter (Pos.to_nat p) f x.
Proof.
  induction p as [p IH|p IH|]; intros x; cbn [SpecFloat.iter_pos].
  - rewrite !IH, <- Nat.iter_add, <- Nat.iter_succ_r. f_equal. lia.
  - rewrite !IH, <- Nat.iter_add. f_equal. lia.
  - reflexivity.
Qed.

Lemma shr_1_m (mrs : shr_record) :
  0 <= shr_m mrs -> shr_m (shr_1 mrs) = shr_m mrs / 2.
Proof.
  destruct mrs as [m r s]. cbn [shr_m]. intros Hm.
  destruct m as [|[p|p|]|p]; cbn [shr_1 shr_m]; [reflexivity| | |reflexivity|lia].
  - rewrite (Pos2Z.inj_xI p). apply Z.div_unique with 1; lia.
  - rewrite (Pos2Z.inj_xO p). apply Z.div_unique with 0; lia.
Qed.

Lemma iter_shr_1_m (k : nat) (mrs : shr_record) :
  0 <= shr_m mrs ->
  shr_m (Nat.iter k shr_1 mrs) = shr_m mrs / 2 ^ Z.of_nat k.
Proof.
  intros Hm. induction k as [|k IH].
  - simpl. rewrite Z.div_1_r. reflexivity.
  - rewrite Nat.iter_succ, shr_1_m, IH.
    + rewrite Nat2Z.inj_succ, Z.pow_succ_r by lia.
      rewrite Z.div_div by lia. f_equal. lia.
    + rewrite IH. apply Z.div_pos; lia.
Qed.

(** [shr] divides the mantissa by a power of two and moves the exponent. *)
Lemma shr_spec (mrs : shr_record) (e n : Z) :
  0 <= shr_m mrs ->
  shr_m (fst (shr mrs e n)) = shr_m mrs / 2 ^ Z.max 0 n
  /\ snd (shr mrs e n) = e + Z.max 0 n.
Proof.
  intros Hm. destruct n as [|p|p]; cbn [shr fst snd].
  - rewrite Z.div_1_r. split; [reflexivity | lia].
  - rewrite iter_pos_nat, iter_shr_1_m by exact Hm.
    rewrite positive_nat_Z. split; [f_equal; f_equal; lia | lia].
  - rewrite Z.div_1_r. split; [reflexivity | lia].
Qed.

Lemma digits2_pos_size (p : positive) : digits2_pos p = Pos.size p.
Proof. induction p; simpl; congruence. Qed.

Lemma Zdigits2_bounds (x : Z) :
  0 < x -> 2 ^ (Zdigits2 x - 1) <= x < 2 ^ Zdigits2 x.
Proof.
  destruct x as [|p|p]; try lia. intros _. cbn [Zdigits2].
  rewrite digits2_pos_size.
  pose proof (Pos.size_gt p) as Hgt. pose proof (Pos.size_le p) as Hle.
  assert (Hpow : Zpos (2 ^ Pos.size p) = 2 ^ Zpos (Pos.size p))
    by (rewrite Pos2Z.inj_pow; reflexivity).
  split.
  - assert (2 * 2 ^ (Zpos (Pos.size p) - 1) = 2 ^ Zpos (Pos.size p)) as H2.
    { rewrite <- Z.pow_succ_r by lia. f_equal. lia. }
    assert (2 ^ Zpos (Pos.size p) <= 2 * Zpos p) by (rewrite <- Hpow; lia).
    lia.
  - rewrite <- Hpow. lia.
Qed.

Lemma Zdigits2_unique (x k : Z) :
  2 ^ (k - 1) <= x < 2 ^ k -> 0 < k -> Zdigits2 x = k.
Proof.
  intros [Hlo Hhi] Hk.
  assert (Hx : 0 < x) by (pose proof (Z.pow_pos_nonneg 2 (k - 1)); lia).
  pose proof (Zdigits2_bounds x Hx) as [Hlo' Hhi'].
  assert (Hd : 0 < Zdigits2 x) by (destruct x; cbn; lia).
  assert (k - 1 < Zdigits2 x).
  { apply (Z.pow_lt_mono_r_iff 2); lia. }
  assert (Zdigits2 x - 1 < k).
  { apply (Z.pow_lt_mono_r_iff 2); lia. }
  lia.
Qed.

Lemma Zdigits2_pos (x : Z) : 0 < x -> 0 < Zdigits2 x.
Proof. destruct x; cbn; lia. Qed.

Lemma Zdigits2_div_pow2 (x n : Z) :
  0 < x -> 0 <= n < Zdigits2 x ->
  0 < x / 2 ^ n /\ Zdigits2 (x / 2 ^ n) = Zdigits2 x - n.
Proof.
  intros Hx Hn. pose proof (Zdigits2_bounds x Hx) as [Hlo Hhi].
  assert (Hpn : 0 < 2 ^ n) by (apply Z.pow_pos_nonneg; lia).
  assert (Hlo' : 2 ^ (Zdigits2 x - n - 1) <= x / 2 ^ n).
  { apply Z.div_le_lower_bound; [lia|].
    rewrite <- Z.pow_add_r by lia.
    replace (n + (Zdigits2 x - n - 1)) with (Zdigits2 x - 1) by lia. exact Hlo. }
  assert (Hhi' : x / 2 ^ n < 2 ^ (Zdigits2 x - n)).
  { apply Z.div_lt_upper_bound; [lia|].
    rewrite <- Z.pow_add_r by lia.
    replace (n + (Zdigits2 x - n)) with (Zdigits2 x) by lia. exact Hhi. }
  assert (0 < 2 ^ (Zdigits2 x - n - 1)) by (apply Z.pow_pos_nonneg; lia).
  split; [lia|]. apply Zdigits2_unique; [|lia].
  replace (Zdigits2 x - n - 1) with (Zdigits2 x - n - 1) in Hlo' by lia.
  split; [exact Hlo' | exact Hhi'].
Qed.

Lemma Zdigits2_mul_pow2 (x n : Z) :
  0 < x -> 0 <= n -> Zdigits2 (x * 2 ^ n) = Zdigits2 x + n.
Proof.
  intros Hx Hn. pose proof (Zdigits2_bounds x Hx) as [Hlo Hhi].
  pose proof (Zdigits2_pos x Hx).
  assert (Hpn : 0 < 2 ^ n) by (apply Z.pow_pos_nonneg; lia).
  apply Zdigits2_unique; [|lia].
  replace (Zdigits2 x + n - 1) with (Zdigits2 x - 1 + n) by lia.
  rewrite !Z.pow_add_r by lia. split; nia.
Qed.

Lemma Zdigits2_mono (x y : Z) : 0 < x -> x <= y -> Zdigits2 x <= Zdigits2 y.
Proof.
  intros Hx Hxy.
  pose proof (Zdigits2_bounds x Hx) as [Hlo _].
  pose proof (Zdigits2_bounds y ltac:(lia)) as [_ Hhi].
  pose proof (Zdigits2_pos y ltac:(lia)).
  assert (Zdigits2 x - 1 < Zdigits2 y); [|lia].
  apply (Z.pow_lt_mono_r_iff 2); lia.
Qed.

Lemma Zdigits2_succ (x : Z) : 0 < x -> Zdigits2 (x + 1) <= Zdigits2 x + 1.
Proof.
  intros Hx. pose proof (Zdigits2_bounds x Hx) as [_ Hhi].
  pose proof (Zdigits2_bounds (x + 1) ltac:(lia)) as [Hlo _].
  pose proof (Zdigits2_pos x Hx).
  assert (Zdigits2 (x + 1) - 1 < Zdigits2 x + 1); [|lia].
  apply (Z.pow_lt_mono_r_iff 2); [lia|lia|].
  rewrite Z.pow_add_r by lia. lia.
Qed.

Lemma Zdigits2_mul_lower (x y : Z) :
  0 < x -> 0 < y -> Zdigits2 x + Zdigits2 y - 1 <= Zdigits2 (x * y).
Proof.
  intros Hx Hy.
  pose proof (Zdigits2_bounds x Hx) as [Hlx _].
  pose proof (Zdigits2_bounds y Hy) as [Hly _].
  pose proof (Zdigits2_pos x Hx). pose proof (Zdigits2_pos y Hy).
  pose proof (Zdigits2_bounds (x * y) ltac:(nia)) as [_ Hhi].
  pose proof (Zdigits2_pos (x * y) ltac:(nia)).
  assert (Zdigits2 x - 1 + (Zdigits2 y - 1) < Zdigits2 (x * y)); [|lia].
  apply (Z.pow_lt_mono_r_iff 2); [lia|lia|].
  rewrite Z.pow_add_r by lia.
  assert (0 < 2 ^ (Zdigits2 x - 1)) by (apply Z.pow_pos_nonneg; lia).
  assert (0 < 2 ^ (Zdigits2 y - 1)) by (apply Z.pow_pos_nonneg; lia).
  nia.
Qed.

Lemma round_nearest_even_bounds (m : Z) (l : location) :
  m <= round_nearest_even m l <= m + 1.
Proof.
  destruct l as [|[]]; cbn [round_nearest_even]; try lia.
  destruct (Z.even m); lia.
Qed.

Lemma shr_m_of_loc (m : Z) (l : location) : shr_m (shr_record_of_loc m l) = m.
Proof. destruct l as [|[]]; reflexivity. Qed.

Lemma fexp_normal (x : Z) :
  emin PyFloat.prec PyFloat.emax + PyFloat.prec <= x -> fexp PyFloat.prec PyFloat.emax x = x - PyFloat.prec.
Proof. unfold fexp, emin, PyFloat.prec, PyFloat.emax. lia. Qed.

(** Rounding a positive mantissa in the normal range: the result keeps
    the sign, is not zero, and its magnitude moves up by at most one
    binade. *)
Lemma binary_round_aux_normal (s : bool) (mx ex : Z) (lx : location) :
  0 < mx ->
  emin PyFloat.prec PyFloat.emax + PyFloat.prec <= Zdigits2 mx + ex ->
  exists m e,
    binary_round_aux PyFloat.prec PyFloat.emax s mx ex lx =
      (if e <=? PyFloat.emax - PyFloat.prec then S754_finite s m e else S754_infinity s)
    /\ Zdigits2 mx + ex <= Zdigits2 (Zpos m) + e <= Zdigits2 mx + ex + 1
    /\ ex <= e <= Z.max ex (Zdigits2 mx + ex - 52)
    /\ Zdigits2 (Zpos m) <= 53.
Proof.
  intros Hmx Hnormal. unfold binary_round_aux, shr_fexp.
  pose proof (Zdigits2_pos mx Hmx) as HD.
  rewrite (fexp_normal _ Hnormal).
  pose proof (shr_spec (shr_record_of_loc mx lx) ex (Zdigits2 mx + ex - PyFloat.prec - ex)) as Hs1.
  rewrite shr_m_of_loc in Hs1. specialize (Hs1 ltac:(lia)).
  destruct (shr (shr_record_of_loc mx lx) ex _) as [mrs1 e1]. cbn [fst snd] in Hs1.
  destruct Hs1 as [Hm1 He1].
  set (n1 := Z.max 0 (Zdigits2 mx + ex - PyFloat.prec - ex)) in *.
  assert (Hn1 : 0 <= n1 < Zdigits2 mx) by (unfold n1, PyFloat.prec; lia).
  destruct (Zdigits2_div_pow2 mx n1 Hmx Hn1) as [Hq1 Hdq1].
  rewrite <- Hm1 in Hq1, Hdq1.
  pose proof (round_nearest_even_bounds (shr_m mrs1) (loc_of_shr_record mrs1)) as Hr.
  set (m1 := round_nearest_even (shr_m mrs1) (loc_of_shr_record mrs1)) in *.
  assert (Hm1pos : 0 < m1) by lia.
  assert (Hd1 : Zdigits2 (shr_m mrs1) <= Zdigits2 m1 <= Zdigits2 (shr_m mrs1) + 1).
  { split; [apply Zdigits2_mono; lia|].
    etransitivity; [apply (Zdigits2_mono m1 (shr_m mrs1 + 1)); lia|].
    apply Zdigits2_succ; lia. }
  rewrite (fexp_normal (Zdigits2 m1 + e1)) by lia.
  pose proof (shr_spec (shr_record_of_loc m1 loc_Exact) e1 (Zdigits2 m1 + e1 - PyFloat.prec - e1)) as Hs2.
  rewrite shr_m_of_loc in Hs2. specialize (Hs2 ltac:(lia)).
  destruct (shr (shr_record_of_loc m1 loc_Exact) e1 _) as [mrs2 e2]. cbn [fst snd] in Hs2.
  destruct Hs2 as [Hm2 He2].
  set (n2 := Z.max 0 (Zdigits2 m1 + e1 - PyFloat.prec - e1)) in *.
  pose proof (Zdigits2_pos m1 Hm1pos) as HD1.
  assert (Hn2 : 0 <= n2 < Zdigits2 m1) by (unfold n2, PyFloat.prec; lia).
  destruct (Zdigits2_div_pow2 m1 n2 Hm1pos Hn2) as [Hq2 Hdq2].
  rewrite <- Hm2 in Hq2, Hdq2.
  destruct (shr_m mrs2) as [|m2|m2]; [lia| |lia].
  exists m2, e2. split; [reflexivity|].
  unfold n1, n2, PyFloat.prec in *. lia.
Qed.

Lemma binary_round_aux_sign (s : bool) (mx ex : Z) (lx : location) :
  match binary_round_aux PyFloat.prec PyFloat.emax s mx ex lx with
  | S754_zero s' | S754_infinity s' | S754_finite s' _ _ => s' = s
  | S754_nan => True
  end.
Proof.
  unfold binary_round_aux.
  destruct (shr_fexp PyFloat.prec PyFloat.emax mx ex lx) as [mrs1 e1].
  destruct (shr_fexp PyFloat.prec PyFloat.emax _ e1 loc_Exact) as [mrs2 e2].
  destruct (shr_m mrs2); [reflexivity| |exact I].
  destruct (e2 <=? PyFloat.emax - PyFloat.prec); reflexivity.
Qed.

Lemma iter_xO_pow2 (m d : positive) : Zpos (Pos.iter xO m d) = Zpos m * 2 ^ Zpos d.
Proof.
  induction d as [|d IH] using Pos.peano_ind.
  - cbn [Pos.iter]. lia.
  - rewrite Pos.iter_succ, Pos2Z.inj_xO, IH, Pos2Z.inj_succ, Z.pow_succ_r by lia. lia.
Qed.

(** [shl_align] preserves the value and lowers the exponent to [ex'] when
    it is below [ex]. *)
Lemma shl_align_spec (mx : positive) (ex ex' : Z) :
  snd (shl_align mx ex ex') = Z.min ex ex'
  /\ Zpos (fst (shl_align mx ex ex')) = Zpos mx * 2 ^ (ex - Z.min ex ex').
Proof.
  unfold shl_align. destruct (ex' - ex) as [|d|d] eqn:Hd; cbn [fst snd].
  - replace (Z.min ex ex') with ex by lia. rewrite Z.sub_diag. lia.
  - replace (Z.min ex ex') with ex by lia. rewrite Z.sub_diag. lia.
  - replace (Z.min ex ex') with ex' by lia. rewrite iter_xO_pow2.
    split; [reflexivity|]. f_equal. f_equal. lia.
Qed.

Lemma binary_round_normal (s : bool) (mx : positive) (ex : Z) :
  emin PyFloat.prec PyFloat.emax + PyFloat.prec <= Zdigits2 (Zpos mx) + ex ->
  exists m e,
    binary_round PyFloat.prec PyFloat.emax s mx ex =
      (if e <=? PyFloat.emax - PyFloat.prec then S754_finite s m e else S754_infinity s)
    /\ Zdigits2 (Zpos mx) + ex <= Zdigits2 (Zpos m) + e <= Zdigits2 (Zpos mx) + ex + 1
    /\ Z.min ex (emin PyFloat.prec PyFloat.emax) <= e
       <= Z.max ex (Zdigits2 (Zpos mx) + ex - 52)
    /\ Zdigits2 (Zpos m) <= 53.
Proof.
  intros Hnormal. unfold binary_round.
  pose proof (shl_align_spec mx ex (fexp PyFloat.prec PyFloat.emax (Zpos (digits2_pos mx) + ex)))
    as [Hez Hmz].
  destruct (shl_align mx ex _) as [mz ez]. cbn [fst snd] in Hez, Hmz.
  assert (Hdz : Zdigits2 (Zpos mz) + ez = Zdigits2 (Zpos mx) + ex).
  { rewrite Hmz, Zdigits2_mul_pow2 by lia. lia. }
  assert (Hfexp : emin PyFloat.prec PyFloat.emax
                  <= fexp PyFloat.prec PyFloat.emax (Zpos (digits2_pos mx) + ex))
    by (unfold fexp; lia).
  destruct (binary_round_aux_normal s (Zpos mz) ez loc_Exact)
    as (m & e & Hr & Hd & He & H53); [lia | lia |].
  exists m, e. split; [exact Hr|]. lia.
Qed.



Lemma Zdigits2_le_of_lt (x k : Z) : 0 < x -> x < 2 ^ k -> 0 <= k -> Zdigits2 x <= k.
Proof.
  intros Hx Hlt Hk. pose proof (Zdigits2_bounds x Hx) as [Hlo _].
  pose proof (Zdigits2_pos x Hx).
  assert (Zdigits2 x - 1 < k); [|lia].
  apply (Z.pow_lt_mono_r_iff 2); lia.
Qed.

(** A positive [int] of at most 1023 bits converts to a positive finite
    float of the same magnitude, up to one binade. *)
Lemma of_int_positive (n : Z) :
  0 < n -> Zdigits2 n <= 1023 ->
  exists m e,
    PyFloat.of_int n = Return (S754_finite false m e)
    /\ Zdigits2 n <= Zdigits2 (Zpos m) + e <= Zdigits2 n + 1
    /\ -1074 <= e <= 971
    /\ Zdigits2 (Zpos m) <= 53.
Proof.
  intros Hn Hd. destruct n as [|p|p]; [lia| |lia].
  unfold PyFloat.of_int, binary_normalize.
  destruct (binary_round_normal false p 0) as (m & e & Hr & Hmag & He & H53).
  { pose proof (Zdigits2_pos (Zpos p) Hn). unfold emin, PyFloat.prec, PyFloat.emax. lia. }
  change (emin PyFloat.prec PyFloat.emax) with (-1074) in He.
  rewrite Hr. exists m, e.
  replace (e <=? PyFloat.emax - PyFloat.prec) with true
    by (symmetry; apply Z.leb_le; unfold PyFloat.emax, PyFloat.prec; lia).
  split; [reflexivity | lia].
Qed.

Lemma of_int_negative (n : Z) (x : PyFloat.float) :
  n < 0 -> PyFloat.of_int n = Return x -> exists m e, x = S754_finite true m e.
Proof.
  intros Hn. destruct n as [|p|p]; [lia|lia|].
  unfold PyFloat.of_int, binary_normalize.
  destruct (binary_round_normal true p 0) as (m & e & Hr & _).
  { pose proof (Zdigits2_pos (Zpos p) eq_refl).
    unfold emin, PyFloat.prec, PyFloat.emax. lia. }
  rewrite Hr. destruct (e <=? _); [|discriminate].
  intros [= <-]. eauto.
Qed.

Lemma of_int_nonnegative (n : Z) (x : PyFloat.float) :
  0 <= n -> PyFloat.of_int n = Return x -> exists y, PyFloat.sqrt x = Return y.
Proof.
  intros Hn. destruct n as [|p|p]; [| |lia].
  - intros [= <-]. eexists. reflexivity.
  - unfold PyFloat.of_int, binary_normalize, binary_round.
    destruct (shl_align p 0 _) as [mz ez].
    pose proof (binary_round_aux_sign false (Zpos mz) ez loc_Exact) as Hsign.
    destruct (binary_round_aux _ _ _ _ _ _) as [s|s| |s m e]; try discriminate;
      intros [= <-]; try subst s; eexists; reflexivity.
Qed.

(** [math.sqrt] of an [int] returns exactly when the [int] is not
    negative and converts to a float. *)
Lemma math_sqrt_returns_iff (n : Z) :
  returns (PyFloat.math_sqrt n) <-> 0 <= n /\ returns (PyFloat.of_int n).
Proof.
  unfold PyFloat.math_sqrt. split.
  - intros [y Hy]. destruct (PyFloat.of_int n) as [x|e] eqn:Hx; [|discriminate].
    split; [|eexists; reflexivity].
    destruct (Z.lt_ge_cases n 0) as [Hneg|Hpos]; [|exact Hpos].
    destruct (of_int_negative n x Hneg Hx) as (m & e & ->). discriminate.
  - intros [Hn [x Hx]]. rewrite Hx. cbn [bind].
    destruct (of_int_nonnegative n x Hn Hx) as [y Hy]. exists y. exact Hy.
Qed.

Lemma math_sqrt_small (n : Z) : 0 <= n < 2 ^ 1023 -> returns (PyFloat.math_sqrt n).
Proof.
  intros [Hlo Hhi]. apply math_sqrt_returns_iff. split; [exact Hlo|].
  destruct (Z.eq_dec n 0) as [->|Hne]; [eexists; reflexivity|].
  destruct (of_int_positive n) as (m & e & Hr & _); [lia| |eexists; exact Hr].
  apply Zdigits2_le_of_lt; lia.
Qed.

Lemma mul_finite_not_zero (sx sy : bool) (mx my : positive) (ex ey : Z) :
  emin PyFloat.prec PyFloat.emax + PyFloat.prec
    <= (Zdigits2 (Zpos mx) + ex) + (Zdigits2 (Zpos my) + ey) - 1 ->
  PyFloat.is_zero (PyFloat.mul (S754_finite sx mx ex) (S754_finite sy my ey)) = false.
Proof.
  intros Hnormal. unfold PyFloat.mul, SFmul.
  pose proof (Zdigits2_mul_lower (Zpos mx) (Zpos my) eq_refl eq_refl) as Hd.
  rewrite <- Pos2Z.inj_mul in Hd.
  destruct (binary_round_aux_normal (xorb sx sy) (Zpos (mx * my)) (ex + ey) loc_Exact)
    as (m & e & -> & _); [reflexivity | lia |].
  destruct (e <=? _); reflexivity.
Qed.

(** The divisor [N * math.sqrt(125)] is a non-zero float for every
    length [N] from 1 up to 1023 bits. *)
Lemma divisor_not_zero (n : Z) :
  0 < n -> Zdigits2 n <= 1023 ->
  exists x root125,
    PyFloat.of_int n = Return x
    /\ PyFloat.math_sqrt 125 = Return root125
    /\ PyFloat.is_zero (PyFloat.mul x root125) = false.
Proof.
  intros Hn Hd. destruct (of_int_positive n Hn Hd) as (m & e & Hx & Hmag & _).
  exists (S754_finite false m e), (S754_finite false 6293971818901970 (-49)).
  split; [exact Hx|]. split; [vm_compute; reflexivity|].
  apply mul_finite_not_zero.
  pose proof (Zdigits2_pos n Hn).
  change (Zdigits2 (Zpos 6293971818901970)) with 53.
  unfold emin, PyFloat.prec, PyFloat.emax. lia.
Qed.

End FloatFacts.

(** ** Floats: values under rounding *)

Section FloatBounds.

Lemma shr_nonpos (mrs : shr_record) (e n : Z) : n <= 0 -> shr mrs e n = (mrs, e).
Proof. destruct n; [reflexivity | lia | reflexivity]. Qed.

Lemma pow2_pos (n : Z) : 0 <= n -> 0 < 2 ^ n.
Proof. intros. apply Z.pow_pos_nonneg; lia. Qed.

Lemma pow2_split (a b : Z) : 0 <= a -> 0 <= b -> 2 ^ (a + b) = 2 ^ a * 2 ^ b.
Proof. intros. apply Z.pow_add_r; lia. Qed.

(** Rounding an exact positive mantissa in the normal range never goes
    above a bound [b * 2^j] with [b <= 2^53] that the exact value is
    strictly below. Values are compared after scaling by [2^(-base)]. *)
Lemma binary_round_aux_exact_le (s : bool) (mx ex base b j : Z) :
  0 < mx ->
  emin PyFloat.prec PyFloat.emax + PyFloat.prec <= Zdigits2 mx + ex ->
  base <= ex -> base <= j ->
  0 < b <= 2 ^ 53 ->
  mx * 2 ^ (ex - base) < b * 2 ^ (j - base) ->
  exists m e,
    binary_round_aux PyFloat.prec PyFloat.emax s mx ex loc_Exact =
      (if e <=? PyFloat.emax - PyFloat.prec then S754_finite s m e else S754_infinity s)
    /\ Zdigits2 mx + ex <= Zdigits2 (Zpos m) + e
    /\ ex <= e
    /\ Zdigits2 (Zpos m) <= 53
    /\ Zpos m * 2 ^ (e - base) <= b * 2 ^ (j - base).
Proof.
  intros Hmx Hnormal Hbase Hj Hb Hlt. unfold binary_round_aux, shr_fexp.
  pose proof (Zdigits2_pos mx Hmx) as HD.
  rewrite (fexp_normal _ Hnormal).
  set (n1 := Zdigits2 mx + ex - PyFloat.prec - ex).
  (* the mantissa after the first shift and rounding, and its exponent *)
  assert (Hfirst : exists m1 e1,
     (let '(mrs', e') := shr (shr_record_of_loc mx loc_Exact) ex n1 in
      (round_nearest_even (shr_m mrs') (loc_of_shr_record mrs'), e')) = (m1, e1)
     /\ 0 < m1 /\ ex <= e1
     /\ Zdigits2 mx + ex <= Zdigits2 m1 + e1 <= Zdigits2 mx + ex + 1
     /\ m1 * 2 ^ (e1 - base) <= b * 2 ^ (j - base)).
  { destruct (Z.le_gt_cases n1 0) as [Hn|Hn].
    - rewrite shr_nonpos by exact Hn. cbn.
      exists mx, ex. split; [reflexivity|]. unfold n1, PyFloat.prec in Hn.
      pose proof (Zdigits2_bounds mx Hmx) as [_ Hhi].
      assert (2 ^ Zdigits2 mx <= 2 ^ 53) by (apply Z.pow_le_mono_r; lia).
      repeat split; try lia.
    - pose proof (shr_spec (shr_record_of_loc mx loc_Exact) ex n1) as Hs1.
      rewrite shr_m_of_loc in Hs1. specialize (Hs1 ltac:(lia)).
      destruct (shr (shr_record_of_loc mx loc_Exact) ex n1) as [mrs1 e1].
      cbn [fst snd] in Hs1. destruct Hs1 as [Hm1 He1].
      replace (Z.max 0 n1) with n1 in * by lia.
      assert (Hn1 : 0 <= n1 < Zdigits2 mx) by (unfold n1, PyFloat.prec in *; lia).
      destruct (Zdigits2_div_pow2 mx n1 Hmx Hn1) as [Hq1 Hdq1].
      rewrite <- Hm1 in Hq1, Hdq1.
      pose proof (round_nearest_even_bounds (shr_m mrs1) (loc_of_shr_record mrs1)) as Hr.
      set (m1 := round_nearest_even (shr_m mrs1) (loc_of_shr_record mrs1)) in *.
      exists m1, e1. split; [reflexivity|].
      assert (Hd0 : Zdigits2 (shr_m mrs1) = 53) by (unfold n1, PyFloat.prec in *; lia).
      pose proof (Zdigits2_bounds (shr_m mrs1) Hq1) as [Hlo0 Hhi0]. rewrite Hd0 in Hlo0, Hhi0.
      assert (Hd1 : 53 <= Zdigits2 m1 <= 54).
      { split; [rewrite <- Hd0; apply Zdigits2_mono; lia|].
        apply Zdigits2_le_of_lt; [lia| |lia].
        change (2 ^ 54) with (2 * 2 ^ 53). lia. }
      assert (Hpn : 0 < 2 ^ n1) by (apply pow2_pos; lia).
      assert (Hmul : shr_m mrs1 * 2 ^ n1 <= mx).
      { rewrite Hm1. rewrite Z.mul_comm. apply Z.mul_div_le. lia. }
      split; [lia|]. split; [lia|]. split; [unfold n1, PyFloat.prec in *; lia|].
      (* the value bound *)
      destruct (Z.le_gt_cases e1 j) as [Hje|Hje].
      + assert (Hlt' : mx < b * 2 ^ (j - e1) * 2 ^ n1).
        { replace (j - base) with ((j - e1) + n1 + (ex - base)) in Hlt by lia.
          rewrite !pow2_split in Hlt by lia.
          pose proof (pow2_pos (ex - base) ltac:(lia)). nia. }
        assert (shr_m mrs1 < b * 2 ^ (j - e1)).
        { rewrite Hm1. apply Z.div_lt_upper_bound; [lia|]. lia. }
        replace (j - base) with ((j - e1) + (e1 - base)) by lia.
        rewrite pow2_split by lia.
        pose proof (pow2_pos (e1 - base) ltac:(lia)).
        pose proof (pow2_pos (j - e1) ltac:(lia)). nia.
      + exfalso.
        assert (b * 2 ^ (j - base) <= mx * 2 ^ (ex - base)); [|lia].
        assert (H1 : 2 ^ 53 * 2 ^ (j - base) <= 2 ^ 52 * 2 ^ (e1 - base)).
        { replace (e1 - base) with ((e1 - base - 1) + 1) by lia.
          rewrite (pow2_split (e1 - base - 1) 1) by lia.
          change (2 ^ 53) with (2 ^ 52 * 2 ^ 1).
          assert (2 ^ (j - base) <= 2 ^ (e1 - base - 1)) by (apply Z.pow_le_mono_r; lia).
          pose proof (pow2_pos (j - base) ltac:(lia)). nia. }
        assert (H2 : 2 ^ 52 * 2 ^ (e1 - base) <= mx * 2 ^ (ex - base)).
        { replace (e1 - base) with (n1 + (ex - base)) by lia.
          rewrite pow2_split by lia.
          pose proof (pow2_pos (ex - base) ltac:(lia)).
          change (53 - 1) with 52 in Hlo0. nia. }
        pose proof (pow2_pos (j - base) ltac:(lia)). nia. }
  destruct Hfirst as (m1 & e1 & Hfirst & Hm1pos & Hex1 & Hmag1 & Hval1).
  destruct (shr (shr_record_of_loc mx loc_Exact) ex n1) as [mrs1 e1'].
  injection Hfirst as Hm1 He1. rewrite Hm1. subst e1'.
  rewrite (fexp_normal (Zdigits2 m1 + e1)) by lia.
  pose proof (shr_spec (shr_record_of_loc m1 loc_Exact) e1 (Zdigits2 m1 + e1 - PyFloat.prec - e1)) as Hs2.
  rewrite shr_m_of_loc in Hs2. specialize (Hs2 ltac:(lia)).
  destruct (shr (shr_record_of_loc m1 loc_Exact) e1 _) as [mrs2 e2]. cbn [fst snd] in Hs2.
  destruct Hs2 as [Hm2 He2].
  set (n2 := Z.max 0 (Zdigits2 m1 + e1 - PyFloat.prec - e1)) in *.
  pose proof (Zdigits2_pos m1 Hm1pos) as HD1.
  assert (Hn2 : 0 <= n2 < Zdigits2 m1) by (unfold n2, PyFloat.prec; lia).
  destruct (Zdigits2_div_pow2 m1 n2 Hm1pos Hn2) as [Hq2 Hdq2].
  rewrite <- Hm2 in Hq2, Hdq2.
  assert (Hfloor : shr_m mrs2 * 2 ^ n2 <= m1).
  { rewrite Hm2, Z.mul_comm. apply Z.mul_div_le. apply pow2_pos; lia. }
  destruct (shr_m mrs2) as [|m2|m2]; [lia| |lia].
  exists m2, e2. split; [reflexivity|]. split; [unfold n2, PyFloat.prec in *; lia|].
  split; [lia|]. split; [unfold n2, PyFloat.prec in *; lia|].
  replace (e2 - base) with (n2 + (e1 - base)) by lia.
  rewrite pow2_split by lia.
  pose proof (pow2_pos (e1 - base) ltac:(lia)). nia.
Qed.

Lemma binary_round_exact_le (s : bool) (mx : positive) (ex base b j : Z) :
  emin PyFloat.prec PyFloat.emax + PyFloat.prec <= Zdigits2 (Zpos mx) + ex ->
  base <= emin PyFloat.prec PyFloat.emax -> base <= ex -> base <= j ->
  0 < b <= 2 ^ 53 ->
  Zpos mx * 2 ^ (ex - base) < b * 2 ^ (j - base) ->
  exists m e,
    binary_round PyFloat.prec PyFloat.emax s mx ex =
      (if e <=? PyFloat.emax - PyFloat.prec then S754_finite s m e else S754_infinity s)
    /\ Zdigits2 (Zpos mx) + ex <= Zdigits2 (Zpos m) + e
    /\ Z.min ex (emin PyFloat.prec PyFloat.emax) <= e
    /\ Zdigits2 (Zpos m) <= 53
    /\ Zpos m * 2 ^ (e - base) <= b * 2 ^ (j - base).
Proof.
  intros Hnormal Hbase Hex Hj Hb Hlt. unfold binary_round.
  pose proof (shl_align_spec mx ex (fexp PyFloat.prec PyFloat.emax (Zpos (digits2_pos mx) + ex)))
    as [Hez Hmz].
  destruct (shl_align mx ex _) as [mz ez]. cbn [fst snd] in Hez, Hmz.
  assert (Hfexp : emin PyFloat.prec PyFloat.emax
                  <= fexp PyFloat.prec PyFloat.emax (Zpos (digits2_pos mx) + ex))
    by (unfold fexp; lia).
  rewrite <- Hez in Hmz.
  assert (Hdz : Zdigits2 (Zpos mz) + ez = Zdigits2 (Zpos mx) + ex).
  { rewrite Hmz, Zdigits2_mul_pow2 by lia. lia. }
  destruct (binary_round_aux_exact_le s (Zpos mz) ez base b j)
    as (m & e & Hr & Hmag & He & H53 & Hval); try lia.
  { rewrite Hmz. replace (ex - base) with ((ex - ez) + (ez - base)) in Hlt by lia.
    rewrite pow2_split, Z.mul_assoc in Hlt by lia. exact Hlt. }
  exists m, e. split; [exact Hr|]. split; [lia|]. split; [lia|]. split; [lia|]. exact Hval.
Qed.

Lemma below_value (m : positive) (e k : Z) :
  -1074 <= e -> Zdigits2 (Zpos m) + e <= k ->
  Zpos m * 2 ^ (e + 1074) < 2 ^ (k + 1074).
Proof.
  intros He Hk. pose proof (Zdigits2_bounds (Zpos m) eq_refl) as [_ Hhi].
  pose proof (Zdigits2_pos (Zpos m) eq_refl).
  assert (2 ^ (Zdigits2 (Zpos m) + (e + 1074)) <= 2 ^ (k + 1074))
    by (apply Z.pow_le_mono_r; lia).
  rewrite pow2_split in * by lia.
  pose proof (pow2_pos (e + 1074) ltac:(lia)). nia.
Qed.

Lemma of_int_returns_positive (n : Z) (x : PyFloat.float) :
  0 < n -> PyFloat.of_int n = Return x ->
  exists m e, x = S754_finite false m e
    /\ Zdigits2 n <= Zdigits2 (Zpos m) + e <= Zdigits2 n + 1
    /\ -1074 <= e <= 971 /\ Zdigits2 (Zpos m) <= 53.
Proof.
  intros Hn. destruct n as [|p|p]; [lia| |lia].
  unfold PyFloat.of_int, binary_normalize.
  destruct (binary_round_normal false p 0) as (m & e & Hr & Hmag & He & H53).
  { pose proof (Zdigits2_pos (Zpos p) Hn). unfold emin, PyFloat.prec, PyFloat.emax. lia. }
  change (emin PyFloat.prec PyFloat.emax) with (-1074) in He.
  rewrite Hr. destruct (e <=? PyFloat.emax - PyFloat.prec) eqn:Hle; [|discriminate].
  apply Z.leb_le in Hle. unfold PyFloat.emax, PyFloat.prec in Hle.
  intros [= <-]. exists m, e. split; [reflexivity|]. lia.
Qed.

Lemma Zdigits2_le_of_lt_nonneg (x k : Z) : 0 <= x -> x < 2 ^ k -> 0 <= k -> Zdigits2 x <= k.
Proof.
  intros Hx Hlt Hk. destruct (Z.eq_dec x 0) as [->|Hne]; [cbn; lia|].
  apply Zdigits2_le_of_lt; lia.
Qed.

Lemma Zdigits2_mul_upper (x y : Z) :
  0 < x -> 0 < y -> Zdigits2 (x * y) <= Zdigits2 x + Zdigits2 y.
Proof.
  intros Hx Hy.
  pose proof (Zdigits2_bounds x Hx) as [_ Hhx].
  pose proof (Zdigits2_bounds y Hy) as [_ Hhy].
  pose proof (Zdigits2_pos x Hx). pose proof (Zdigits2_pos y Hy).
  apply Zdigits2_le_of_lt; [nia| |lia].
  rewrite pow2_split by lia. nia.
Qed.

(** The square root of a positive finite float of magnitude at most 1024
    is a positive normal float below [2^513]. *)
Lemma sqrt_finite_below (m : positive) (e : Z) :
  -1074 <= e -> 1 <= Zdigits2 (Zpos m) + e <= 1024 ->
  root_bounded (SFsqrt PyFloat.prec PyFloat.emax (S754_finite false m e)).
Proof.
  intros He Hmag. cbn [SFsqrt]. unfold SFsqrt_core_binary.
  set (d := Zdigits2 (Zpos m)) in *.
  set (e' := Z.min (fexp PyFloat.prec PyFloat.emax (Z.div2 (d + e + 1))) (Z.div2 e)).
  assert (Hdiv2 : forall z, Z.div2 z = z / 2) by (intros; apply Z.div2_div).
  assert (He'lo : -600 <= e').
  { unfold e', fexp, emin, PyFloat.prec, PyFloat.emax. rewrite !Hdiv2.
    pose proof (Z.div_le_lower_bound e 2 (-600) ltac:(lia) ltac:(lia)).
    pose proof (Z.div_le_lower_bound (d + e + 1) 2 (-500) ltac:(lia) ltac:(lia)). lia. }
  assert (He'hi : 2 * e' <= e).
  { unfold e'. rewrite !Hdiv2. pose proof (Z.mul_div_le e 2 ltac:(lia)). lia. }
  clearbody e'.
  set (s := e - 2 * e') in *.
  assert (Hs : 0 <= s) by (unfold s; lia).
  set (m' := match s with Z.pos _ => Z.shiftl (Zpos m) s | Z0 => Zpos m | Z.neg _ => 0 end).
  assert (Hm' : m' = Zpos m * 2 ^ s).
  { unfold m'. destruct s as [|p|p]; [rewrite Z.pow_0_r; lia | | lia].
    apply Z.shiftl_mul_pow2. lia. }
  clearbody m'.
  pose proof (Z.sqrtrem_spec m') as Hsq.
  destruct (Z.sqrtrem m') as [q r].
  pose proof (pow2_pos s Hs) as Hps.
  specialize (Hsq ltac:(nia)). cbn in Hsq. destruct Hsq as [Hqr Hr].
  assert (Hq : 0 < q) by nia.
  pose proof (Zdigits2_bounds (Zpos m) eq_refl) as [Hmlo Hmhi]. fold d in Hmlo, Hmhi.
  assert (Hd : 0 < d) by (apply Zdigits2_pos; lia).
  (* digits of the root *)
  assert (Hdq : Zdigits2 q <= (d + s + 1) / 2).
  { apply Zdigits2_le_of_lt; [lia| |].
    - assert (Hk : d + s <= 2 * ((d + s + 1) / 2)).
      { pose proof (Z.div_mod (d + s + 1) 2 ltac:(lia)).
        pose proof (Z.mod_pos_bound (d + s + 1) 2 ltac:(lia)). lia. }
      assert (Hkpos : 0 <= (d + s + 1) / 2) by (apply Z.div_pos; lia).
      set (k := (d + s + 1) / 2) in *.
      destruct (Z.lt_ge_cases q (2 ^ k)) as [Hlt|Hge]; [exact Hlt|exfalso].
      assert (Hkk : 2 ^ (d + s) <= 2 ^ (k + k))
        by (apply Z.pow_le_mono_r; lia).
      rewrite (pow2_split k k) in Hkk by lia.
      assert (Hm'lt : m' < 2 ^ (d + s)) by (rewrite Hm', (pow2_split d s) by lia; nia).
      pose proof (pow2_pos k Hkpos).
      assert (2 ^ k * 2 ^ k <= q * q) by (apply Z.mul_le_mono_nonneg; lia).
      lia.
    - apply Z.div_pos; lia. }
  assert (Hmag' : Zdigits2 q + e' <= 512).
  { assert ((d + s + 1) / 2 + e' = (d + e + 1) / 2).
    { unfold s. replace (d + (e - 2 * e') + 1) with ((d + e + 1) + (- e') * 2) by lia.
      rewrite Z.div_add by lia. lia. }
    assert ((d + e + 1) / 2 < 513)
      by (apply Z.div_lt_upper_bound; lia).
    lia. }
  pose proof (Zdigits2_pos q Hq) as Hdqpos.
  destruct (binary_round_aux_normal false q e'
              (if r =? 0 then loc_Exact else loc_Inexact (if r <=? q then Lt else Gt)))
    as (mr & er & Hres & Hmagr & Her & H53).
  - exact Hq.
  - change (emin PyFloat.prec PyFloat.emax + PyFloat.prec) with (-1021). lia.
  - cbn zeta. rewrite Hres.
    replace (er <=? PyFloat.emax - PyFloat.prec) with true
      by (symmetry; apply Z.leb_le; unfold PyFloat.emax, PyFloat.prec; lia).
    right. exists mr, er. split; [reflexivity|]. split; [repeat split; lia | lia].
Qed.

Lemma math_sqrt_below (n : Z) (root : PyFloat.float) :
  PyFloat.math_sqrt n = Return root -> root_bounded root.
Proof.
  unfold PyFloat.math_sqrt. destruct (PyFloat.of_int n) as [x|err] eqn:Hx; [|discriminate].
  cbn [bind]. destruct (Z.lt_trichotomy n 0) as [Hneg|[->|Hpos]].
  - destruct (of_int_negative n x Hneg Hx) as (m & e & ->). discriminate.
  - injection Hx as <-. intros [= <-]. left. reflexivity.
  - destruct (of_int_returns_positive n x Hpos Hx) as (m & e & -> & Hmag & He & H53).
    pose proof (Zdigits2_pos n Hpos). intros [= <-].
    apply sqrt_finite_below; lia.
Qed.

Lemma shr_1_r (mrs : shr_record) :
  0 <= shr_m mrs -> shr_r (shr_1 mrs) = Z.odd (shr_m mrs).
Proof.
  destruct mrs as [m r s]. cbn [shr_m]. intros Hm.
  destruct m as [|[p|p|]|p]; cbn [shr_1 shr_r]; try reflexivity. lia.
Qed.

(** After a shift by [n > 0] the round bit is bit [n - 1] of the mantissa. *)
Lemma shr_round_bit (mrs : shr_record) (e n : Z) :
  0 <= shr_m mrs -> 0 < n ->
  shr_r (fst (shr mrs e n)) = Z.odd (shr_m mrs / 2 ^ (n - 1)).
Proof.
  intros Hm Hn. destruct n as [|p|p]; try lia. cbn [shr fst].
  rewrite iter_pos_nat.
  destruct (Pos2Nat.is_succ p) as [k Hk]. rewrite Hk, Nat.iter_succ.
  rewrite shr_1_r, iter_shr_1_m by (try rewrite iter_shr_1_m by exact Hm;
                                     try apply Z.div_pos; try apply pow2_pos; lia).
  f_equal. f_equal. f_equal. lia.
Qed.

Lemma round_down_when_bit_clear (mrs : shr_record) :
  shr_r mrs = false ->
  round_nearest_even (shr_m mrs) (loc_of_shr_record mrs) = shr_m mrs.
Proof. destruct mrs as [m [] []]; cbn; congruence. Qed.

(** When the first bit shifted out is clear, rounding an exact positive
    mantissa with more than 53 bits truncates it. *)
Lemma binary_round_aux_exact_down (s : bool) (mx ex : Z) :
  0 < mx ->
  emin PyFloat.prec PyFloat.emax + PyFloat.prec <= Zdigits2 mx + ex ->
  53 < Zdigits2 mx ->
  Z.odd (mx / 2 ^ (Zdigits2 mx - 53 - 1)) = false ->
  exists m,
    binary_round_aux PyFloat.prec PyFloat.emax s mx ex loc_Exact =
      (if ex + (Zdigits2 mx - 53) <=? PyFloat.emax - PyFloat.prec
       then S754_finite s m (ex + (Zdigits2 mx - 53))
       else S754_infinity s)
    /\ Zpos m = mx / 2 ^ (Zdigits2 mx - 53)
    /\ Zdigits2 (Zpos m) = 53.
Proof.
  intros Hmx Hnormal Hbig Hbit. unfold binary_round_aux, shr_fexp.
  rewrite (fexp_normal _ Hnormal).
  set (n1 := Zdigits2 mx + ex - PyFloat.prec - ex).
  assert (Hn1 : n1 = Zdigits2 mx - 53) by (unfold n1, PyFloat.prec; lia).
  pose proof (shr_spec (shr_record_of_loc mx loc_Exact) ex n1) as Hs1.
  pose proof (shr_round_bit (shr_record_of_loc mx loc_Exact) ex n1) as Hr1.
  rewrite shr_m_of_loc in Hs1, Hr1.
  specialize (Hs1 ltac:(lia)). specialize (Hr1 ltac:(lia) ltac:(lia)).
  destruct (shr (shr_record_of_loc mx loc_Exact) ex n1) as [mrs1 e1].
  cbn [fst snd] in Hs1, Hr1. destruct Hs1 as [Hm1 He1].
  rewrite Hn1 in Hr1. rewrite Hbit in Hr1.
  rewrite (round_down_when_bit_clear _ Hr1).
  replace (Z.max 0 n1) with (Zdigits2 mx - 53) in * by lia.
  destruct (Zdigits2_div_pow2 mx (Zdigits2 mx - 53) Hmx ltac:(lia)) as [Hq Hdq].
  rewrite <- Hm1 in Hq, Hdq.
  rewrite (fexp_normal (Zdigits2 (shr_m mrs1) + e1)) by lia.
  rewrite shr_nonpos by (unfold PyFloat.prec; lia).
  rewrite shr_m_of_loc.
  destruct (shr_m mrs1) as [|m|m] eqn:Hm; [lia| |lia].
  exists m. subst e1. split; [reflexivity|]. split; [exact Hm1 | lia].
Qed.

Lemma value_exponent_bound (m : positive) (e k : Z) :
  -1074 <= e -> 0 <= k -> Zpos m * 2 ^ (e + 1074) <= 2 ^ k -> e + 1074 <= k.
Proof.
  intros He Hk Hv. apply (Z.pow_le_mono_r_iff 2); [lia|lia|].
  pose proof (pow2_pos (e + 1074) ltac:(lia)). nia.
Qed.

(** A double of at most 53 bits that is below [2^k] is at most
    [2^k - 2^(k - 53)]. *)
Lemma below_power_gap (m : positive) (a k : Z) :
  0 <= a -> Zdigits2 (Zpos m) <= 53 -> 53 <= k ->
  2 ^ (k - 1) <= Zpos m * 2 ^ a -> Zpos m * 2 ^ a < 2 ^ k ->
  Zpos m * 2 ^ a + 2 ^ (k - 53) <= 2 ^ k.
Proof.
  intros Ha H53 Hk Hlo Hhi.
  assert (Hd : Zdigits2 (Zpos m) + a = k).
  { rewrite <- (Zdigits2_mul_pow2 (Zpos m) a eq_refl Ha).
    apply Zdigits2_unique; [split; assumption | lia]. }
  assert (Hak : k - 53 <= a) by lia.
  replace k with ((k - a) + a) in Hhi |- * at 2 by lia.
  rewrite (pow2_split (k - a) a) in * by (pose proof (Zdigits2_pos (Zpos m) eq_refl); lia).
  assert (Hm : Zpos m + 1 <= 2 ^ (k - a)).
  { pose proof (pow2_pos a Ha). nia. }
  assert (2 ^ (k - 53) <= 2 ^ a) by (apply Z.pow_le_mono_r; lia).
  pose proof (pow2_pos a Ha). nia.
Qed.

(** The running sum of square roots never leaves [[0, 2^567]]: below
    the cap ordinary rounding cannot pass it, and at the cap a root, being
    less than half an ulp, is absorbed. *)
Lemma add_sum_bounded (x y : PyFloat.float) :
  sum_bounded x -> root_bounded y -> sum_bounded (PyFloat.add x y).
Proof.
  intros Hx Hy.
  destruct Hy as [->|(my & ey & -> & (Hey & Hny & H53y) & Hmagy)].
  { destruct Hx as [->|(mx & ex & -> & Hx)]; [left; reflexivity | right; eauto]. }
  pose proof (below_value my ey 513 Hey Hmagy) as HR.
  assert (HRpos : 0 < Zpos my * 2 ^ (ey + 1074))
    by (pose proof (pow2_pos (ey + 1074) ltac:(lia)); nia).
  assert (Hcap : 2 ^ (513 + 1074) <= 2 ^ (567 + 1074))
    by (apply Z.pow_le_mono_r; lia).
  assert (Hp513 : 0 < 2 ^ (513 + 1074)) by (apply pow2_pos; lia).
  destruct Hx as [->|(mx & ex & -> & (Hex & Hnx & H53x) & Hvx)].
  { right. exists my, ey. split; [reflexivity|]. split; [repeat split; lia|].
    lia. }
  unfold PyFloat.add, SFadd. cbn [cond_Zopp].
  set (ez := Z.min ex ey).
  assert (Hez : ez <= ex /\ ez <= ey /\ -1074 <= ez) by (unfold ez; lia).
  clearbody ez.
  pose proof (shl_align_spec mx ex ez) as [_ Hax].
  pose proof (shl_align_spec my ey ez) as [_ Hay].
  replace (Z.min ex ez) with ez in Hax by lia.
  replace (Z.min ey ez) with ez in Hay by lia.
  destruct (shl_align mx ex ez) as [ax ?]. destruct (shl_align my ey ez) as [ay ?].
  cbn [fst] in *. change (Zpos ax + Zpos ay) with (Zpos (ax + ay)).
  cbn [binary_normalize].
  assert (Hsum : Zpos (ax + ay) * 2 ^ (ez + 1074)
                 = Zpos mx * 2 ^ (ex + 1074) + Zpos my * 2 ^ (ey + 1074)).
  { rewrite Pos2Z.inj_add, Hax, Hay.
    replace (ex + 1074) with ((ex - ez) + (ez + 1074)) by lia.
    replace (ey + 1074) with ((ey - ez) + (ez + 1074)) by lia.
    rewrite (pow2_split (ex - ez)), (pow2_split (ey - ez)) by lia. ring. }
  assert (Hdig : Zdigits2 (Zpos mx) + ex <= Zdigits2 (Zpos (ax + ay)) + ez).
  { assert (Zdigits2 (Zpos ax) = Zdigits2 (Zpos mx) + (ex - ez))
      by (rewrite Hax; apply Zdigits2_mul_pow2; lia).
    pose proof (Zdigits2_mono (Zpos ax) (Zpos (ax + ay)) eq_refl ltac:(lia)). lia. }
  set (T := Zpos mx * 2 ^ (ex + 1074)) in *.
  set (R := Zpos my * 2 ^ (ey + 1074)) in *.
  destruct (Z.lt_ge_cases (T + R) (2 ^ (567 + 1074))) as [Hbelow|Hreach].
  - (* below the cap *)
    destruct (binary_round_exact_le false (ax + ay) ez (-1074) (2 ^ 53) 514)
      as (m & e & Hr & Hmag & He & H53 & Hval).
    + change (emin PyFloat.prec PyFloat.emax + PyFloat.prec) with (-1021). lia.
    + change (emin PyFloat.prec PyFloat.emax) with (-1074). lia.
    + lia.
    + lia.
    + lia.
    + replace (ez - -1074) with (ez + 1074) by lia.
      replace (514 - -1074) with (514 + 1074) by lia.
      rewrite Hsum.
      assert (Hc : 2 ^ 53 * 2 ^ (514 + 1074) = 2 ^ (567 + 1074))
        by (rewrite <- pow2_split by lia; f_equal).
      rewrite Hc. exact Hbelow.
    + replace (e - -1074) with (e + 1074) in Hval by lia.
      assert (Hval' : Zpos m * 2 ^ (e + 1074) <= 2 ^ (567 + 1074)).
      { etransitivity; [exact Hval|].
        replace (514 - -1074) with (514 + 1074) by lia.
        rewrite <- pow2_split by lia. apply Z.pow_le_mono_r; lia. }
      change (emin PyFloat.prec PyFloat.emax) with (-1074) in He.
      pose proof (value_exponent_bound m e (567 + 1074) ltac:(lia) ltac:(lia) Hval').
      rewrite Hr. replace (e <=? PyFloat.emax - PyFloat.prec) with true
        by (symmetry; apply Z.leb_le; unfold PyFloat.emax, PyFloat.prec; lia).
      right. exists m, e. split; [reflexivity|]. split; [repeat split; lia|]. exact Hval'.
  - (* at the cap *)
    assert (HT : T = 2 ^ (567 + 1074)).
    { destruct (Z.eq_dec T (2 ^ (567 + 1074))) as [Heq|Hne]; [exact Heq|exfalso].
      assert (Hlt : T < 2 ^ (567 + 1074)) by lia.
      assert (Hlo : 2 ^ (567 + 1074 - 1) <= T).
      { assert (2 ^ (513 + 1074) <= 2 ^ (567 + 1074 - 1)) by (apply Z.pow_le_mono_r; lia).
        assert (2 * 2 ^ (567 + 1074 - 1) = 2 ^ (567 + 1074)).
        { rewrite <- Z.pow_succ_r by lia. f_equal. }
        lia. }
      pose proof (below_power_gap mx (ex + 1074) (567 + 1074) ltac:(lia) H53x ltac:(lia)
                    Hlo Hlt) as Hgap.
      fold T in Hgap.
      assert (2 ^ (513 + 1074) <= 2 ^ (567 + 1074 - 53)) by (apply Z.pow_le_mono_r; lia).
      lia. }
    pose proof (Zdigits2_pos (Zpos my) eq_refl) as Hdy.
    assert (Hezhi : ez <= 512) by lia.
    assert (HD : Zdigits2 (Zpos (ax + ay)) = 568 - ez).
    { pose proof (Zdigits2_mul_pow2 (Zpos (ax + ay)) (ez + 1074) eq_refl ltac:(lia)) as Hd.
      rewrite Hsum, HT in Hd.
      rewrite (Zdigits2_unique (2 ^ (567 + 1074) + R) (567 + 1074 + 1)) in Hd; [lia| |lia].
      replace (567 + 1074 + 1 - 1) with (567 + 1074) by lia.
      assert (2 ^ (567 + 1074 + 1) = 2 * 2 ^ (567 + 1074))
        by (rewrite <- Z.pow_succ_r by lia; f_equal; lia).
      pose proof (pow2_pos (567 + 1074) ltac:(lia)).
      lia. }
    (* the sum is [2^(t + 53)] plus a remainder below [2^(t - 1)] *)
    set (t := 514 - ez).
    assert (Ht : 2 <= t) by (unfold t; lia).
    set (rem := Zpos (ax + ay) - 2 ^ (t + 53)).
    assert (Hrem : rem * 2 ^ (ez + 1074) = R).
    { unfold rem. rewrite Z.mul_sub_distr_r, Hsum, HT, <- pow2_split by (unfold t; lia).
      replace (t + 53 + (ez + 1074)) with (567 + 1074) by (unfold t; lia). lia. }
    pose proof (pow2_pos (ez + 1074) ltac:(lia)) as Hpez.
    assert (Hrem0 : 0 <= rem) by nia.
    assert (Hremlt : rem < 2 ^ (t - 1)).
    { assert (Hsplit : 2 ^ (513 + 1074) = 2 ^ (t - 1) * 2 ^ (ez + 1074)).
      { rewrite <- pow2_split by (unfold t; lia). f_equal. unfold t. lia. }
      rewrite Hsplit in HR. rewrite <- Hrem in HR. nia. }
    assert (Hmono1 : 2 ^ (t - 1) <= 2 ^ t) by (apply Z.pow_le_mono_r; lia).
    assert (Hmono2 : 2 ^ (t - 1) <= 2 ^ (t + 1)) by (apply Z.pow_le_mono_r; lia).
    assert (Hq53 : Zpos (ax + ay) / 2 ^ t = 2 ^ 53).
    { symmetry. apply (Z.div_unique_pos _ _ _ rem); [lia|].
      unfold rem. rewrite <- pow2_split by lia. lia. }
    assert (Hq52 : Zpos (ax + ay) / 2 ^ (t + 1) = 2 ^ 52).
    { symmetry. apply (Z.div_unique_pos _ _ _ rem); [lia|].
      unfold rem. rewrite <- pow2_split by lia.
      replace (t + 1 + 52) with (t + 53) by lia. lia. }
    unfold binary_round.
    pose proof (shl_align_spec (ax + ay) ez
                  (fexp PyFloat.prec PyFloat.emax (Zpos (digits2_pos (ax + ay)) + ez)))
      as [Hez' Hmz].
    change (Zpos (digits2_pos (ax + ay))) with (Zdigits2 (Zpos (ax + ay))) in *.
    rewrite HD in *.
    rewrite fexp_normal in *
      by (change (emin PyFloat.prec PyFloat.emax + PyFloat.prec) with (-1021); lia).
    destruct (shl_align (ax + ay) ez _) as [mz ez']. cbn [fst snd] in Hez', Hmz.
    replace (Z.min ez (568 - ez + ez - PyFloat.prec)) with ez in *
      by (unfold PyFloat.prec; lia).
    subst ez'. rewrite Z.sub_diag, Z.pow_0_r, Z.mul_1_r in Hmz.
    injection Hmz as ->.
    destruct (binary_round_aux_exact_down false (Zpos (ax + ay)) ez)
      as (m & Hres & Hm & Hdm).
    + reflexivity.
    + change (emin PyFloat.prec PyFloat.emax + PyFloat.prec) with (-1021). lia.
    + lia.
    + rewrite HD. replace (568 - ez - 53 - 1) with t by (unfold t; lia).
      rewrite Hq53. reflexivity.
    + rewrite HD in Hres, Hm.
      replace (568 - ez - 53) with (t + 1) in Hres, Hm by (unfold t; lia).
      rewrite Hq52 in Hm.
      replace (ez + (t + 1) <=? PyFloat.emax - PyFloat.prec) with true in Hres
        by (symmetry; apply Z.leb_le; unfold t, PyFloat.emax, PyFloat.prec; lia).
      rewrite Hres. right. exists m, (ez + (t + 1)).
      split; [reflexivity|]. split; [repeat split; unfold t; lia|].
      rewrite Hm, <- pow2_split by (unfold t; lia).
      apply Z.pow_le_mono_r; unfold t; lia.
Qed.

(** The sum of any number of square roots stays within [[0, 2^567]]. *)
Lemma spec_sum_bounded (pairs : list (Z * Z)) : forall (acc total : PyFloat.float),
  spec_sum pairs acc = Return total -> sum_bounded acc -> sum_bounded total.
Proof.
  induction pairs as [|scores rest IH]; intros acc total Hsum Hacc.
  - injection Hsum as <-. exact Hacc.
  - cbn [spec_sum] in Hsum. unfold spec_term in Hsum.
    destruct (PyFloat.math_sqrt _) as [root|err] eqn:Hroot; [|discriminate].
    cbn [bind] in Hsum. apply (IH _ _ Hsum).
    apply add_sum_bounded; [exact Hacc | exact (math_sqrt_below _ _ Hroot)].
Qed.

Lemma div_pow2_small (x n : Z) : 0 <= x -> 0 <= n -> Zdigits2 x <= n -> x / 2 ^ n = 0.
Proof.
  intros Hx Hn Hd. apply Z.div_small. split; [exact Hx|].
  destruct (Z.eq_dec x 0) as [->|Hne]; [apply pow2_pos; lia|].
  pose proof (Zdigits2_bounds x ltac:(lia)) as [_ Hhi].
  assert (2 ^ Zdigits2 x <= 2 ^ n) by (apply Z.pow_le_mono_r; lia). lia.
Qed.

(** Rounding cannot overflow from a magnitude of at most 1023: the result
    is a zero or a finite float. *)
Lemma binary_round_aux_finite (s : bool) (mx ex : Z) (lx : location) :
  0 <= mx -> ex <= 971 -> Zdigits2 mx + ex <= 1023 ->
  PyFloat.is_finite (binary_round_aux PyFloat.prec PyFloat.emax s mx ex lx) = true.
Proof.
  intros Hmx Hex Hmag. unfold binary_round_aux, shr_fexp.
  set (n1 := fexp PyFloat.prec PyFloat.emax (Zdigits2 mx + ex) - ex).
  assert (Hn1 : ex + Z.max 0 n1 <= 971)
    by (unfold n1, fexp, emin, PyFloat.prec, PyFloat.emax; lia).
  pose proof (shr_spec (shr_record_of_loc mx lx) ex n1) as Hs1.
  rewrite shr_m_of_loc in Hs1. specialize (Hs1 Hmx).
  destruct (shr (shr_record_of_loc mx lx) ex n1) as [mrs1 e1]. cbn [fst snd] in Hs1.
  destruct Hs1 as [Hm1 He1].
  pose proof (round_nearest_even_bounds (shr_m mrs1) (loc_of_shr_record mrs1)) as Hr.
  set (m1 := round_nearest_even (shr_m mrs1) (loc_of_shr_record mrs1)) in *.
  assert (Hm0 : 0 <= shr_m mrs1) by (rewrite Hm1; apply Z.div_pos; [lia | apply pow2_pos; lia]).
  assert (Hd1 : Zdigits2 m1 + e1 <= 1024).
  { destruct (Z.le_gt_cases (Zdigits2 mx) (Z.max 0 n1)) as [Hsmall|Hbig].
    - rewrite (div_pow2_small mx (Z.max 0 n1)) in Hm1 by lia.
      assert (Zdigits2 m1 <= 1) by (apply Zdigits2_le_of_lt_nonneg; lia). lia.
    - assert (Hmxpos : 0 < mx) by (destruct mx; cbn in Hbig; lia).
      destruct (Zdigits2_div_pow2 mx (Z.max 0 n1) Hmxpos ltac:(lia)) as [Hq Hdq].
      rewrite <- Hm1 in Hq, Hdq.
      assert (Zdigits2 m1 <= Zdigits2 (shr_m mrs1) + 1).
      { etransitivity; [apply (Zdigits2_mono m1 (shr_m mrs1 + 1)); lia|].
        apply Zdigits2_succ; lia. }
      lia. }
  set (n2 := fexp PyFloat.prec PyFloat.emax (Zdigits2 m1 + e1) - e1).
  assert (Hn2 : e1 + Z.max 0 n2 <= 971)
    by (unfold n2, fexp, emin, PyFloat.prec, PyFloat.emax; lia).
  pose proof (shr_spec (shr_record_of_loc m1 loc_Exact) e1 n2) as Hs2.
  rewrite shr_m_of_loc in Hs2. specialize (Hs2 ltac:(lia)).
  destruct (shr (shr_record_of_loc m1 loc_Exact) e1 n2) as [mrs2 e2]. cbn [fst snd] in Hs2.
  destruct Hs2 as [Hm2 He2].
  assert (Hm2pos : 0 <= shr_m mrs2)
    by (rewrite Hm2; apply Z.div_pos; [lia | apply pow2_pos; lia]).
  destruct (shr_m mrs2) as [|m2|m2]; [reflexivity| |lia].
  replace (e2 <=? PyFloat.emax - PyFloat.prec) with true
    by (symmetry; apply Z.leb_le; unfold PyFloat.emax, PyFloat.prec; lia).
  reflexivity.
Qed.

(** A quotient of finite floats whose magnitudes differ by at most 1000
    binades is finite. *)
Lemma div_finite (sx sy : bool) (mx my : positive) (ex ey : Z) :
  (Zdigits2 (Zpos mx) + ex) - (Zdigits2 (Zpos my) + ey) <= 1000 ->
  PyFloat.is_finite
    (SFdiv PyFloat.prec PyFloat.emax (S754_finite sx mx ex) (S754_finite sy my ey)) = true.
Proof.
  intros Hmag. cbn [SFdiv]. unfold SFdiv_core_binary.
  set (d1 := Zdigits2 (Zpos mx)) in *. set (d2 := Zdigits2 (Zpos my)) in *.
  set (e' := Z.min (fexp PyFloat.prec PyFloat.emax (d1 + ex - (d2 + ey))) (ex - ey)).
  assert (He' : e' <= ex - ey /\ e' <= 971)
    by (unfold e', fexp, emin, PyFloat.prec, PyFloat.emax; lia).
  clearbody e'. set (s := ex - ey - e') in *.
  assert (Hs : 0 <= s) by (unfold s; lia).
  set (m' := match s with Z.pos _ => Z.shiftl (Zpos mx) s | Z0 => Zpos mx | Z.neg _ => 0 end).
  assert (Hm' : m' = Zpos mx * 2 ^ s).
  { unfold m'. destruct s as [|p|p]; [rewrite Z.pow_0_r; lia | | lia].
    apply Z.shiftl_mul_pow2. lia. }
  clearbody m'.
  pose proof (Z_div_mod m' (Zpos my) eq_refl) as Hdiv.
  destruct (Z.div_eucl m' (Zpos my)) as [q r]. destruct Hdiv as [Hqr Hr].
  pose proof (pow2_pos s Hs) as Hps.
  assert (Hq : 0 <= q) by nia.
  pose proof (Zdigits2_bounds (Zpos mx) eq_refl) as [_ Hxhi]. fold d1 in Hxhi.
  pose proof (Zdigits2_bounds (Zpos my) eq_refl) as [Hylo _]. fold d2 in Hylo.
  assert (Hd1 : 0 < d1) by (apply Zdigits2_pos; lia).
  assert (Hd2 : 0 < d2) by (apply Zdigits2_pos; lia).
  assert (Hdq : Zdigits2 q <= Z.max 0 (d1 + s - d2 + 1)).
  { apply Zdigits2_le_of_lt_nonneg; [exact Hq| |lia].
    assert (Hm'lt : m' < 2 ^ d1 * 2 ^ s) by (rewrite Hm'; nia).
    destruct (Z.le_gt_cases 0 (d1 + s - d2 + 1)) as [Hnn|Hn].
    - rewrite Z.max_r by lia.
      assert (Hsplit : 2 ^ d1 * 2 ^ s = 2 ^ (d1 + s - d2 + 1) * 2 ^ (d2 - 1)).
      { rewrite <- !pow2_split by lia. f_equal. lia. }
      pose proof (pow2_pos (d2 - 1) ltac:(lia)).
      pose proof (pow2_pos (d1 + s - d2 + 1) Hnn). nia.
    - rewrite Z.max_l by lia. rewrite Z.pow_0_r.
      assert (2 ^ d1 * 2 ^ s <= 2 ^ (d2 - 1)).
      { rewrite <- pow2_split by lia. apply Z.pow_le_mono_r; lia. }
      nia. }
  apply binary_round_aux_finite; [exact Hq | lia |]. unfold s in Hdq. lia.
Qed.

(** A product of positive normal floats of magnitude sum at most 1000 is
    a positive finite float, within one binade of the sum. *)
Lemma mul_finite_magnitude (mx my : positive) (ex ey : Z) :
  -1021 <= (Zdigits2 (Zpos mx) + ex) + (Zdigits2 (Zpos my) + ey) - 1 ->
  (Zdigits2 (Zpos mx) + ex) + (Zdigits2 (Zpos my) + ey) <= 1000 ->
  ex + ey <= 971 ->
  exists m e,
    PyFloat.mul (S754_finite false mx ex) (S754_finite false my ey) = S754_finite false m e
    /\ (Zdigits2 (Zpos mx) + ex) + (Zdigits2 (Zpos my) + ey) - 1 <= Zdigits2 (Zpos m) + e
       <= (Zdigits2 (Zpos mx) + ex) + (Zdigits2 (Zpos my) + ey) + 1.
Proof.
  intros Hlo Hhi Hexp. unfold PyFloat.mul, SFmul. cbn [xorb].
  pose proof (Zdigits2_mul_lower (Zpos mx) (Zpos my) eq_refl eq_refl) as Hdl.
  pose proof (Zdigits2_mul_upper (Zpos mx) (Zpos my) eq_refl eq_refl) as Hdu.
  rewrite <- Pos2Z.inj_mul in Hdl, Hdu.
  destruct (binary_round_aux_normal false (Zpos (mx * my)) (ex + ey) loc_Exact)
    as (m & e & -> & Hmag & He & _); [reflexivity | |].
  - change (emin PyFloat.prec PyFloat.emax + PyFloat.prec) with (-1021). lia.
  - replace (e <=? PyFloat.emax - PyFloat.prec) with true
      by (symmetry; apply Z.leb_le; unfold PyFloat.emax, PyFloat.prec; lia).
    exists m, e. split; [reflexivity | lia].
Qed.

Lemma at_most_magnitude (m : positive) (e b j k : Z) :
  -1074 <= e -> -1074 <= j -> 0 <= k ->
  Zpos m * 2 ^ (e + 1074) <= b * 2 ^ (j + 1074) -> b <= 2 ^ k ->
  Zdigits2 (Zpos m) + e <= j + k + 1.
Proof.
  intros He Hj Hk Hval Hb.
  assert (Hlt : Zpos m * 2 ^ (e + 1074) < 2 ^ (j + k + 1 + 1074)).
  { replace (j + k + 1 + 1074) with ((k + 1) + (j + 1074)) by lia.
    rewrite (pow2_split (k + 1)), (pow2_split k 1) by lia.
    pose proof (pow2_pos (j + 1074) ltac:(lia)). pose proof (pow2_pos k Hk).
    change (2 ^ 1) with 2. nia. }
  pose proof (Zdigits2_mul_pow2 (Zpos m) (e + 1074) eq_refl ltac:(lia)) as Hd.
  pose proof (pow2_pos (e + 1074) ltac:(lia)).
  pose proof (Zdigits2_le_of_lt (Zpos m * 2 ^ (e + 1074)) (j + k + 1 + 1074)
                ltac:(nia) Hlt ltac:(lia)).
  lia.
Qed.

(** The value of the formula never overflows. *)
Lemma spec_score_finite (food cs : list Z) (value : PyFloat.float) :
  food <> [] -> Z.of_nat (length food) <= sys_maxsize ->
  spec_score food cs = Return value ->
  PyFloat.is_finite value = true.
Proof.
  intros Hne Hlen. unfold spec_score.
  destruct (spec_sum _ _) as [total|err] eqn:Hsum; [|discriminate]. cbn [bind].
  change (PyFloat.of_int 10) with (Return (S754_finite false 5629499534213120 (-49))).
  cbn [bind].
  destruct (PyFloat.of_int _) as [n|err] eqn:Hn; [|discriminate]. cbn [bind].
  replace (PyFloat.math_sqrt 125) with (Return (S754_finite false 6293971818901970 (-49)))
    by (vm_compute; reflexivity).
  cbn [bind]. unfold PyFloat.truediv.
  destruct (PyFloat.is_zero _) eqn:Hz; [discriminate|]. intros [= <-].
  (* the divisor *)
  assert (Hpos : 0 < Z.of_nat (length food)) by (destruct food; [congruence | simpl; lia]).
  destruct (of_int_returns_positive _ _ Hpos Hn) as (mn & en & -> & Hmagn & Hen & H53n).
  pose proof (Zdigits2_pos _ Hpos) as Hdn.
  assert (Hdn63 : Zdigits2 (Z.of_nat (length food)) <= 63)
    by (apply Zdigits2_le_of_lt; unfold sys_maxsize in Hlen; lia).
  destruct (mul_finite_magnitude mn 6293971818901970 en (-49)) as (md & ed & Hd & Hmagd).
  { change (Zdigits2 (Zpos 6293971818901970)) with 53. lia. }
  { change (Zdigits2 (Zpos 6293971818901970)) with 53. lia. }
  { lia. }
  change (Zdigits2 (Zpos 6293971818901970)) with 53 in Hmagd.
  rewrite Hd.
  (* the sum *)
  pose proof (spec_sum_bounded _ _ _ Hsum ltac:(left; reflexivity)) as Htotal.
  destruct Htotal as [->|(mt & et & -> & (Het & Hnt & H53t) & Hvt)]; [reflexivity|].
  rewrite <- (Z.mul_1_l (2 ^ (567 + 1074))) in Hvt.
  pose proof (at_most_magnitude mt et 1 567 0 Het ltac:(lia) ltac:(lia) Hvt ltac:(lia))
    as Hmagt.
  destruct (mul_finite_magnitude mt 5629499534213120 et (-49)) as (mx & ex & Hx & Hmagx).
  { change (Zdigits2 (Zpos 5629499534213120)) with 53. lia. }
  { change (Zdigits2 (Zpos 5629499534213120)) with 53. lia. }
  { pose proof (Zdigits2_pos (Zpos mt) eq_refl). lia. }
  change (Zdigits2 (Zpos 5629499534213120)) with 53 in Hmagx.
  rewrite Hx. apply div_finite. lia.
Qed.

End FloatBounds.

(** ** Rendering with three decimals *)

Section FormatFacts.

Lemma digit_is_digit (d : Z) : 0 <= d < 10 -> PyFloat.is_digit (PyFloat.digit d) = true.
Proof.
  intros Hd.
  assert (d = 0 \/ d = 1 \/ d = 2 \/ d = 3 \/ d = 4 \/ d = 5 \/ d = 6 \/ d = 7
          \/ d = 8 \/ d = 9) as Hcases by lia.
  repeat (destruct Hcases as [->|Hcases]; [reflexivity|]). subst d. reflexivity.
Qed.

Lemma string_of_uint_all_digits (u : Decimal.uint) :
  PyFloat.all_digits (NilEmpty.string_of_uint u) = true.
Proof. induction u; simpl; auto. Qed.

Lemma decimal_all_digits (n : Z) :
  PyFloat.decimal n <> EmptyString /\ PyFloat.all_digits (PyFloat.decimal n) = true.
Proof.
  unfold PyFloat.decimal, NilZero.string_of_uint.
  destruct (N.to_uint (Z.to_N n)) eqn:Hu;
    (split; [discriminate | try reflexivity; apply (string_of_uint_all_digits (_ u))]).
Qed.

Lemma fixed3_three_decimals (sign : bool) (k : Z) :
  PyFloat.three_decimals (PyFloat.sign_prefix sign +:+ PyFloat.fixed3 k).
Proof.
  destruct (decimal_all_digits (k / 1000)) as [Hne Hall].
  exists sign, (PyFloat.decimal (k / 1000)), (PyFloat.digit (k / 100 mod 10)),
    (PyFloat.digit (k / 10 mod 10)), (PyFloat.digit (k mod 10)).
  split; [reflexivity|]. split; [exact Hne|]. split; [exact Hall|].
  repeat split; apply digit_is_digit; apply Z.mod_pos_bound; lia.
Qed.

(** A finite float is rendered with exactly three digits after the point. *)
Lemma format_3f_three_decimals (x : PyFloat.float) :
  PyFloat.is_finite x = true -> PyFloat.three_decimals (PyFloat.format_3f x).
Proof.
  destruct x as [s|s| |s m e]; try discriminate; intros _;
    apply fixed3_three_decimals.
Qed.

End FormatFacts.

(** ** The scorer *)

Section ScorerFacts.
Implicit Types (food cs : list Z).

Lemma sqrt_defined_small (f c : Z) : 0 <= f ^ 2 * c < 2 ^ 1023 -> sqrt_defined f c.
Proof. intros Hsmall. apply math_sqrt_returns_iff, math_sqrt_small, Hsmall. Qed.

Lemma all_sqrt_defined_cons f food c cs :
  all_sqrt_defined (f :: food) (c :: cs) ->
  sqrt_defined f c /\ all_sqrt_defined food cs.
Proof.
  intros Hall. split.
  - apply (Hall 0%nat); reflexivity.
  - intros i x y Hx Hy. apply (Hall (S i)); assumption.
Qed.

Lemma spec_sum_returns food : forall cs acc,
  all_sqrt_defined food cs -> returns (spec_sum (zip food cs) acc).
Proof.
  induction food as [|f food IH]; intros cs acc Hall; [eexists; reflexivity|].
  destruct cs as [|c cs]; [eexists; reflexivity|].
  apply all_sqrt_defined_cons in Hall as [Hhead Htail].
  cbn [zip_with spec_sum]. unfold spec_term. cbn [fst snd].
  destruct (proj2 (math_sqrt_returns_iff (f ^ 2 * c)) Hhead) as [root ->].
  cbn [bind]. apply IH. exact Htail.
Qed.

(** The only exceptions of the sum are those of [math.sqrt]. *)
Lemma math_sqrt_raises (n : Z) (e : exception) :
  PyFloat.math_sqrt n = Raise e -> e = ValueError \/ e = OverflowError.
Proof.
  unfold PyFloat.math_sqrt, PyFloat.of_int.
  destruct (binary_normalize _ _ n 0 false) as [s|s| |[] m ex]; cbn;
    intros [= <-]; auto.
Qed.

Lemma spec_sum_raises (pairs : list (Z * Z)) : forall acc e,
  spec_sum pairs acc = Raise e -> e = ValueError \/ e = OverflowError.
Proof.
  induction pairs as [|scores rest IH]; intros acc e; [discriminate|].
  cbn [spec_sum]. unfold spec_term.
  destruct (PyFloat.math_sqrt _) as [root|e'] eqn:Hroot; cbn [bind].
  - apply IH.
  - intros [= <-]. exact (math_sqrt_raises _ _ Hroot).
Qed.

Lemma length_bits (food : list Z) :
  food <> [] -> Z.of_nat (length food) <= sys_maxsize ->
  0 < Z.of_nat (length food) /\ Zdigits2 (Z.of_nat (length food)) <= 1023.
Proof.
  intros Hne Hmax. assert (Hpos : 0 < Z.of_nat (length food))
    by (destruct food; [congruence | simpl; lia]).
  split; [exact Hpos|].
  etransitivity; [apply (Zdigits2_le_of_lt _ 63 Hpos)|]; unfold sys_maxsize in Hmax; lia.
Qed.

(** With a non-empty [food] the spec's formula fails only where
    [math.sqrt] does. *)
Lemma spec_score_returns food cs :
  food <> [] -> Z.of_nat (length food) <= sys_maxsize ->
  all_sqrt_defined food cs -> returns (spec_score food cs).
Proof.
  intros Hne Hmax Hall. unfold spec_score.
  destruct (spec_sum_returns food cs (S754_zero false) Hall) as [total ->].
  cbn [bind]. change (PyFloat.of_int 10) with (Return (S754_finite false 5629499534213120 (-49))).
  cbn [bind].
  destruct (length_bits food Hne Hmax) as [Hpos Hbits].
  destruct (divisor_not_zero _ Hpos Hbits) as (n & root125 & -> & -> & Hnz).
  cbn [bind]. unfold PyFloat.truediv. rewrite Hnz. eexists; reflexivity.
Qed.

Lemma spec_score_raises food cs e :
  food <> [] -> Z.of_nat (length food) <= sys_maxsize ->
  spec_score food cs = Raise e -> e = ValueError \/ e = OverflowError.
Proof.
  intros Hne Hmax. unfold spec_score.
  destruct (spec_sum _ _) as [total|e'] eqn:Hsum; cbn [bind].
  - change (PyFloat.of_int 10) with (Return (S754_finite false 5629499534213120 (-49))).
    cbn [bind].
    destruct (length_bits food Hne Hmax) as [Hpos Hbits].
    destruct (divisor_not_zero _ Hpos Hbits) as (n & root125 & -> & -> & Hnz).
    cbn [bind]. unfold PyFloat.truediv. rewrite Hnz. discriminate.
  - intros [= <-]. exact (spec_sum_raises _ _ _ Hsum).
Qed.

Lemma singleton_string_map_inj (k v w : string) :
  ({[ k := v ]} : gmap string string) = {[ k := w ]} -> v = w.
Proof.
  intros Heq. apply (f_equal (fun m => m !! k)) in Heq.
  rewrite !lookup_singleton_eq in Heq. congruence.
Qed.

End ScorerFacts.

(** C1, as stated, fails: for a non-empty pair of equal-length integer
    sequences with a negative customer-service score the function returns
    no mapping, because [math.sqrt] rejects the negative product. *)
Lemma negative_product_raises :
  [1] <> ([] : list Z)
  /\ length [1] = length [-1]
  /\ calculate_overall_score "Applebee's" [1] [-1] = Raise ValueError
  /\ ~ returns (calculate_overall_score "Applebee's" [1] [-1]).
Proof.
  split; [discriminate|]. split; [reflexivity|].
  assert (H : calculate_overall_score "Applebee's" [1] [-1] = Raise ValueError)
    by (vm_compute; reflexivity).
  split; [exact H|]. rewrite H. intros [v Hv]. discriminate.
Qed.

(** C1, amended. For every restaurant name and every pair of non-empty,
    equal-length integer sequences, of at most [sys.maxsize] items, in which
    every [food_scores[i]^2 * customer_service_scores[i]] is non-negative
    and converts to a float, [calculate_overall_score] returns the mapping
    from that name to the rendering by ["{:.3f}"] of the binary64 value
    [sum_i sqrt(food_scores[i]^2 * customer_service_scores[i]) * 10
     / (N * sqrt(125))]; that value is finite and its rendering has exactly
    three digits after the decimal point. *)
Theorem calculate_overall_score_formula
    (restaurant_name : string) (food_scores customer_service_scores : list Z) :
  food_scores <> [] ->
  length food_scores = length customer_service_scores ->
  Z.of_nat (length food_scores) <= sys_maxsize ->
  all_sqrt_defined food_scores customer_service_scores ->
  exists value,
    spec_score food_scores customer_service_scores = Return value
    /\ calculate_overall_score restaurant_name food_scores customer_service_scores
       = Return {[ restaurant_name := PyFloat.format_3f value ]}
    /\ PyFloat.is_finite value = true
    /\ PyFloat.three_decimals (PyFloat.format_3f value).
Proof.
  intros Hne Hlen Hmax Hall.
  destruct (spec_score_returns _ _ Hne Hmax Hall) as [value Hvalue].
  pose proof (spec_score_finite _ _ _ Hne Hmax Hvalue) as Hfinite.
  exists value. split; [exact Hvalue|].
  split; [|split; [exact Hfinite | apply format_3f_three_decimals, Hfinite]].
  rewrite calculate_overall_score_unfold.
  rewrite formatted_score_spec by lia. rewrite Hvalue. reflexivity.
Qed.

Lemma calculate_overall_score_formula_witness :
  exists value,
    spec_score [1; 2; 3; 4; 5] [1; 2; 3; 4; 5] = Return value
    /\ calculate_overall_score "Applebee's" [1; 2; 3; 4; 5] [1; 2; 3; 4; 5]
       = Return {[ "Applebee's"%string := PyFloat.format_3f value ]}
    /\ PyFloat.is_finite value = true
    /\ PyFloat.three_decimals (PyFloat.format_3f value).
Proof.
  apply (calculate_overall_score_formula "Applebee's" [1; 2; 3; 4; 5] [1; 2; 3; 4; 5]).
  - discriminate.
  - reflexivity.
  - vm_compute. discriminate.
  - intros i f c Hf Hc.
    assert (Hsmall : 0 <= f ^ 2 * c < 2 ^ 1023).
    { do 5 (destruct i as [|i]; [injection Hf as <-; injection Hc as <-; lia|]).
      discriminate Hf. }
    apply sqrt_defined_small. exact Hsmall.
Defined.

(** The example of the docstring, [1..5] against [1..5]: the formula gives
    5.0454..., rendered "5.045". *)
Example calculate_overall_score_docstring_example :
  calculate_overall_score "Applebee's" [1; 2; 3; 4; 5] [1; 2; 3; 4; 5]
  = Return {[ "Applebee's"%string := "5.045"%string ]}.
Proof. vm_compute. reflexivity. Qed.

(** C2, as stated, fails: with sequences of different lengths the function
    can return a score, computed from the pairs that exist, instead of
    failing with a [ScoreInputError]. *)
Lemma unequal_lengths_not_rejected :
  length [1] <> length [1; 2]
  /\ calculate_overall_score "Applebee's" [1] [1; 2]
     = Return {[ "Applebee's"%string := "0.894"%string ]}
  /\ ~ raises_named (calculate_overall_score "Applebee's" [1] [1; 2]) "ScoreInputError".
Proof.
  assert (H : calculate_overall_score "Applebee's" [1] [1; 2]
              = Return {[ "Applebee's"%string := "0.894"%string ]})
    by (vm_compute; reflexivity).
  split; [discriminate|]. split; [exact H|].
  rewrite H. intros (e & Hraise & _). discriminate Hraise.
Qed.

(** Two empty sequences fail, but with [ZeroDivisionError]. *)
Example empty_scores_raise_ZeroDivisionError :
  calculate_overall_score "Applebee's" [] [] = Raise ZeroDivisionError
  /\ ~ raises_named (calculate_overall_score "Applebee's" [] []) "ScoreInputError".
Proof.
  split; [reflexivity|].
  intros (e & Hraise & Hname). injection Hraise as <-. discriminate Hname.
Qed.

(** C2, amended. When [food_scores] is empty, or
    [customer_service_scores] is shorter than [food_scores],
    [calculate_overall_score] raises an exception and returns no score:
    [ZeroDivisionError] for an empty [food_scores] (whatever the other
    list), and for a shorter [customer_service_scores] the exception of
    [math.sqrt] on an earlier pair if there is one, [IndexError]
    otherwise. *)
Theorem calculate_overall_score_bad_lengths
    (restaurant_name : string) (food_scores customer_service_scores : list Z) :
  food_scores = [] \/ (length customer_service_scores < length food_scores)%nat ->
  raises (calculate_overall_score restaurant_name food_scores customer_service_scores)
  /\ (food_scores = [] ->
      calculate_overall_score restaurant_name food_scores customer_service_scores
      = Raise ZeroDivisionError)
  /\ (food_scores <> [] ->
      all_sqrt_defined food_scores customer_service_scores ->
      calculate_overall_score restaurant_name food_scores customer_service_scores
      = Raise IndexError).
Proof.
  intros Hbad. rewrite calculate_overall_score_unfold.
  destruct food_scores as [|f food].
  - rewrite formatted_score_empty. split; [eexists; reflexivity|].
    split; [reflexivity | congruence].
  - destruct Hbad as [Hnil|Hshort]; [discriminate|].
    rewrite (formatted_score_short _ _ Hshort).
    split; [|split; [discriminate|]].
    + destruct (spec_sum _ _); eexists; reflexivity.
    + intros _ Hall.
      destruct (spec_sum_returns _ _ (S754_zero false) Hall) as [total ->]. reflexivity.
Qed.

Lemma calculate_overall_score_bad_lengths_witness :
  raises (calculate_overall_score "Applebee's" [3; 4] [5])
  /\ calculate_overall_score "Applebee's" [3; 4] [5] = Raise IndexError.
Proof.
  destruct (calculate_overall_score_bad_lengths "Applebee's" [3; 4] [5])
    as (Hraises & _ & Hindex).
  - right. simpl. lia.
  - split; [exact Hraises|]. apply Hindex; [discriminate|].
    intros i f c Hf Hc. destruct i as [|i]; [|destruct i; discriminate Hc].
    injection Hf as <-. injection Hc as <-.
    apply sqrt_defined_small. lia.
Defined.

(** C8. For every restaurant name, food score 5 with customer-service
    score 5 gives exactly the formatted score "10.000". *)
Theorem calculate_overall_score_maximum (restaurant_name : string) :
  calculate_overall_score restaurant_name [5] [5]
  = Return {[ restaurant_name := "10.000"%string ]}.
Proof.
  rewrite calculate_overall_score_unfold.
  replace (formatted_score [5] [5]) with (Return (A := string) "10.000")
    by (vm_compute; reflexivity).
  reflexivity.
Qed.

(** C9, as stated, fails: food score 1 with customer-service score 1 does
    not give "2.000". *)
Lemma score_of_ones_is_not_2 :
  calculate_overall_score "Applebee's" [1] [1]
  <> Return {[ "Applebee's"%string := "2.000"%string ]}.
Proof.
  replace (calculate_overall_score "Applebee's" [1] [1])
    with (Return (A := gmap string string) {[ "Applebee's"%string := "0.894"%string ]})
    by (vm_compute; reflexivity).
  intros Heq.
  assert (Hmaps : ({[ "Applebee's"%string := "0.894"%string ]} : gmap string string)
                  = {[ "Applebee's"%string := "2.000"%string ]}) by congruence.
  apply singleton_string_map_inj in Hmaps. discriminate Hmaps.
Qed.

(** C9, amended. For every restaurant name, food score 1 with
    customer-service score 1 gives the formatted score "0.894", the
    rendering of [sqrt(1) * 10 / (1 * sqrt(125))]. *)
Theorem calculate_overall_score_ones (restaurant_name : string) :
  calculate_overall_score restaurant_name [1] [1]
  = Return {[ restaurant_name := "0.894"%string ]}.
Proof.
  rewrite calculate_overall_score_unfold.
  replace (formatted_score [1] [1]) with (Return (A := string) "0.894")
    by (vm_compute; reflexivity).
  reflexivity.
Qed.

(** C10, as stated, fails: with a non-empty [food_scores] and a strictly
    longer [customer_service_scores] the function can still raise. *)
Lemma longer_list_can_still_raise :
  [1] <> ([] : list Z)
  /\ Nat.lt (length [1]) (length [-1; 3])
  /\ calculate_overall_score "Applebee's" [1] [-1; 3] = Raise ValueError.
Proof.
  split; [discriminate|]. split; [simpl; lia|]. vm_compute. reflexivity.
Qed.

(** C10, amended. When [food_scores] is non-empty (and of at most
    [sys.maxsize] items) and [customer_service_scores] is strictly longer,
    the extra customer-service values are silently ignored: the outcome is
    exactly that for [customer_service_scores] cut to the first
    [len(food_scores)] items, it is never an [IndexError] or a
    [ZeroDivisionError], and it is a returned score whenever every
    [food_scores[i]^2 * customer_service_scores[i]] is non-negative and
    converts to a float. *)
Theorem calculate_overall_score_ignores_extra
    (restaurant_name : string) (food_scores customer_service_scores : list Z) :
  food_scores <> [] ->
  (length food_scores < length customer_service_scores)%nat ->
  Z.of_nat (length food_scores) <= sys_maxsize ->
  calculate_overall_score restaurant_name food_scores customer_service_scores
  = calculate_overall_score restaurant_name food_scores
      (take (length food_scores) customer_service_scores)
  /\ calculate_overall_score restaurant_name food_scores customer_service_scores
     <> Raise IndexError
  /\ calculate_overall_score restaurant_name food_scores customer_service_scores
     <> Raise ZeroDivisionError
  /\ (all_sqrt_defined food_scores customer_service_scores ->
      returns (calculate_overall_score restaurant_name food_scores
                 customer_service_scores)).
Proof.
  intros Hne Hlonger Hmax. rewrite !calculate_overall_score_unfold.
  rewrite (formatted_score_spec food_scores customer_service_scores) by lia.
  rewrite (formatted_score_spec food_scores (take _ _))
    by (rewrite length_take; lia).
  rewrite spec_score_truncate.
  split; [reflexivity|].
  destruct (spec_score food_scores customer_service_scores) as [value|e] eqn:Hscore;
    cbn [bind].
  - repeat split; try discriminate. intros _. eexists; reflexivity.
  - destruct (spec_score_raises _ _ _ Hne Hmax Hscore) as [-> | ->].
    + repeat split; try discriminate. intros Hall.
      destruct (spec_score_returns _ _ Hne Hmax Hall) as [v Hv]. congruence.
    + repeat split; try discriminate. intros Hall.
      destruct (spec_score_returns _ _ Hne Hmax Hall) as [v Hv]. congruence.
Qed.

Lemma calculate_overall_score_ignores_extra_witness :
  calculate_overall_score "Applebee's" [1] [1; 2]
  = calculate_overall_score "Applebee's" [1] (take (length [1 : Z]) [1; 2])
  /\ returns (calculate_overall_score "Applebee's" [1] [1; 2]).
Proof.
  destruct (calculate_overall_score_ignores_extra "Applebee's" [1] [1; 2])
    as (Hsame & _ & _ & Hreturns).
  - discriminate.
  - simpl. lia.
  - vm_compute. discriminate.
  - split; [exact Hsame|]. apply Hreturns.
    intros i f c Hf Hc. destruct i as [|i]; [|discriminate Hf].
    injection Hf as <-. injection Hc as <-.
    apply sqrt_defined_small. lia.
Defined.

(** ** The coordinator *)

Section RuntimeFacts.
Import ChatRuntime.
Variable respond : agent -> option string -> list turn -> string -> option string.
Variable follow_up : agent -> agent -> list turn -> option string.
Variable reflect : list turn -> string.

(** The loop only appends turns, at most [budget] of them, and its first
    new turn carries the request it was started with. *)
Lemma exchange_extends initiator to context (budget : nat) :
  forall next_request done,
    exists more,
      exchange respond follow_up initiator to context budget next_request done
      = done ++ more
      /\ (length more <= budget)%nat
      /\ ((0 < budget)%nat ->
          exists t rest, more = t :: rest /\ request t = next_request).
Proof.
  induction budget as [|budget IH]; intros next_request done.
  - exists []. rewrite app_nil_r. repeat split; [simpl; lia | intros H; inversion H].
  - cbn [exchange].
    destruct (respond to context done next_request) as [answer|].
    + destruct (follow_up initiator to _) as [request'|].
      * destruct (IH request' (done ++ [ {| request := next_request;
                                            response := Some answer |} ]))
          as (more & -> & Hlen & _).
        exists ({| request := next_request; response := Some answer |} :: more).
        rewrite <- app_assoc. split; [reflexivity|]. split; [simpl; lia|].
        intros _. eexists _, _. split; reflexivity.
      * eexists. split; [reflexivity|]. split; [simpl; lia|].
        intros _. eexists _, _. split; reflexivity.
    + eexists. split; [reflexivity|]. split; [simpl; lia|].
      intros _. eexists _, _. split; reflexivity.
Qed.

Lemma last_message_exists (t : turn) (rest : list turn) :
  exists m, last (concat (map turn_messages (t :: rest))) = Some m.
Proof.
  destruct (last (concat (map turn_messages (t :: rest)))) as [m|] eqn:Hlast;
    [exists m; reflexivity|].
  apply last_None in Hlast. discriminate Hlast.
Qed.

(** What one stage does, whatever the collaborators say. *)
Lemma run_stage_spec initiator context (c : chat) :
  stage_initiator (run_stage respond follow_up reflect initiator context c) = initiator
  /\ stage_recipient (run_stage respond follow_up reflect initiator context c) = recipient c
  /\ stage_context (run_stage respond follow_up reflect initiator context c) = context
  /\ (length (turns (run_stage respond follow_up reflect initiator context c))
      <= max_turns c)%nat
  /\ ((0 < max_turns c)%nat ->
      (1 <= length (turns (run_stage respond follow_up reflect initiator context c)))%nat
      /\ head (stage_messages (run_stage respond follow_up reflect initiator context c))
         = Some (message c)
      /\ (summary_method c = last_msg ->
          last (stage_messages (run_stage respond follow_up reflect initiator context c))
          = Some (summary (run_stage respond follow_up reflect initiator context c)))).
Proof.
  unfold run_stage, stage_messages. cbn [stage_initiator stage_recipient stage_context
                                         turns summary].
  destruct (exchange_extends initiator (recipient c) context (max_turns c) (message c) [])
    as (more & -> & Hlen & Hfirst).
  rewrite app_nil_l. repeat split; [exact Hlen| | |].
  - destruct (Hfirst H) as (t & rest & -> & _). simpl. lia.
  - destruct (Hfirst H) as (t & rest & -> & <-). reflexivity.
  - intros ->. destruct (Hfirst H) as (t & rest & -> & _).
    unfold summarize. destruct (last_message_exists t rest) as [m ->]. reflexivity.
Qed.

(** The stages of a run are the chats of the queue, one stage per chat and
    in the order of the queue, and each stage receives the summary of the
    stage before it. *)
Lemma run_chats_stages initiator : forall queue context,
  map stage_recipient (run_chats respond follow_up reflect initiator context queue)
  = map recipient queue
  /\ map stage_context (run_chats respond follow_up reflect initiator context queue)
     = take (length queue)
         (context :: map (fun st => Some (summary st))
                       (run_chats respond follow_up reflect initiator context queue)).
Proof.
  induction queue as [|c rest IH]; intros context; [split; reflexivity|].
  cbn [run_chats map length take].
  destruct (IH (Some (summary (run_stage respond follow_up reflect initiator context c))))
    as [Hrecipients Hcontexts].
  split; [f_equal; exact Hrecipients | f_equal; exact Hcontexts].
Qed.

End RuntimeFacts.

(** C7. For every user query and whatever the collaborators answer, [main]
    run on the conversational runtime goes through exactly three stages,
    in the fixed order fetch, analyze, score, each of them once: the fetch
    stage opens with "Query: " followed by the query, the analyze stage
    with "Here are the reviews", the score stage with "Here are the
    scores"; the entrypoint agent initiates each stage, a stage starts
    from the summary of the stage before it, makes at least one and at
    most 2 turns, and its summary is the content of the last message of
    its exchange. *)
Theorem main_runs_three_stages
    (respond : agent -> option string -> list ChatRuntime.turn -> string -> option string)
    (follow_up : agent -> agent -> list ChatRuntime.turn -> option string)
    (reflect : list ChatRuntime.turn -> string)
    (user_query : string) :
  exists fetch analyze score,
    main (ChatRuntime.initiate_chats respond follow_up reflect) user_query
    = [fetch; analyze; score]
    /\ ChatRuntime.stage_recipient fetch = data_fetch_agent
    /\ ChatRuntime.stage_recipient analyze = review_analysis_agent
    /\ ChatRuntime.stage_recipient score = scoring_agent
    /\ head (ChatRuntime.stage_messages fetch) = Some ("Query: " +:+ user_query)
    /\ head (ChatRuntime.stage_messages analyze) = Some "Here are the reviews"%string
    /\ head (ChatRuntime.stage_messages score) = Some "Here are the scores"%string
    /\ ChatRuntime.stage_context fetch = None
    /\ ChatRuntime.stage_context analyze = Some (ChatRuntime.summary fetch)
    /\ ChatRuntime.stage_context score = Some (ChatRuntime.summary analyze)
    /\ Forall (fun st =>
                 ChatRuntime.stage_initiator st = entrypoint_agent
                 /\ (1 <= length (ChatRuntime.turns st) <= 2)%nat
                 /\ last (ChatRuntime.stage_messages st) = Some (ChatRuntime.summary st))
              [fetch; analyze; score].
Proof.
  unfold main, ChatRuntime.initiate_chats, chat_queue. cbn [ChatRuntime.run_chats].
  match goal with
  | |- context [ChatRuntime.run_stage _ _ _ _ None ?c] =>
      pose proof (run_stage_spec respond follow_up reflect entrypoint_agent None c)
        as (Hi1 & Hr1 & Hc1 & _ & H1);
      set (fetch := ChatRuntime.run_stage respond follow_up reflect entrypoint_agent None c)
        in *
  end.
  match goal with
  | |- context [ChatRuntime.run_stage _ _ _ _ (Some (ChatRuntime.summary fetch)) ?c] =>
      pose proof (run_stage_spec respond follow_up reflect entrypoint_agent
                    (Some (ChatRuntime.summary fetch)) c)
        as (Hi2 & Hr2 & Hc2 & _ & H2);
      set (analyze := ChatRuntime.run_stage respond follow_up reflect entrypoint_agent
                        (Some (ChatRuntime.summary fetch)) c) in *
  end.
  match goal with
  | |- context [ChatRuntime.run_stage _ _ _ _ (Some (ChatRuntime.summary analyze)) ?c] =>
      pose proof (run_stage_spec respond follow_up reflect entrypoint_agent
                    (Some (ChatRuntime.summary analyze)) c)
        as (Hi3 & Hr3 & Hc3 & _ & H3);
      set (score := ChatRuntime.run_stage respond follow_up reflect entrypoint_agent
                      (Some (ChatRuntime.summary analyze)) c) in *
  end.
  pose proof (run_stage_spec respond follow_up reflect entrypoint_agent None
                {| recipient := data_fetch_agent; message := "Query: " +:+ user_query;
                   max_turns := 2; summary_method := last_msg |})
    as (_ & _ & _ & Hl1 & _).
  pose proof (run_stage_spec respond follow_up reflect entrypoint_agent
                (Some (ChatRuntime.summary fetch))
                {| recipient := review_analysis_agent; message := "Here are the reviews";
                   max_turns := 2; summary_method := last_msg |})
    as (_ & _ & _ & Hl2 & _).
  pose proof (run_stage_spec respond follow_up reflect entrypoint_agent
                (Some (ChatRuntime.summary analyze))
                {| recipient := scoring_agent; message := "Here are the scores";
                   max_turns := 2; summary_method := last_msg |})
    as (_ & _ & _ & Hl3 & _).
  fold fetch in Hl1. fold analyze in Hl2. fold score in Hl3.
  cbn [recipient message max_turns summary_method] in *.
  destruct (H1 ltac:(lia)) as (Hn1 & Hh1 & Hs1).
  destruct (H2 ltac:(lia)) as (Hn2 & Hh2 & Hs2).
  destruct (H3 ltac:(lia)) as (Hn3 & Hh3 & Hs3).
  exists fetch, analyze, score.
  split; [reflexivity|]. repeat (split; [assumption|]).
  constructor; [split; [exact Hi1 | split; [lia | exact (Hs1 eq_refl)]]|].
  constructor; [split; [exact Hi2 | split; [lia | exact (Hs2 eq_refl)]]|].
  constructor; [split; [exact Hi3 | split; [lia | exact (Hs3 eq_refl)]]|].
  constructor.
Qed.

(** * Further properties *)

(** ** Names and lines *)

Section NameFacts.
Import PyStr.

Lemma normalize_fixed (x : string) :
  normalize_restaurant_name (normalize_restaurant_name x) = normalize_restaurant_name x.
Proof.
  induction x as [|c x IH]; [reflexivity|].
  rewrite normalize_cons.
  destruct (isalnum_char (lower_char c)) eqn:Halnum; [|exact IH].
  rewrite normalize_cons, lower_char_idem, Halnum, IH. reflexivity.
Qed.

Lemma occurs_cons (sep : string) (c : ascii) (s : string) :
  occurs sep s -> occurs sep (String c s).
Proof. intros (p & q & ->). exists (String c p), q. reflexivity. Qed.

(** A line built from a name without ". ", the delimiter and a review is
    cut back into that name and that review. *)
Lemma partition_first_join (name review : string) :
  ~ occurs ". " name ->
  partition_first ". " (name +:+ ". " +:+ review) = Some (name, review).
Proof.
  induction name as [|c name IH]; intros Hno; [reflexivity|].
  rewrite append_cons, partition_first_unfold.
  assert (Hstrip : strip_prefix ". " (String c (name +:+ ". " +:+ review)) = None).
  { cbn [strip_prefix]. destruct (Ascii.eqb_spec "."%char c) as [<-|]; [|reflexivity].
    destruct name as [|d name]; [reflexivity|].
    rewrite append_cons. destruct (Ascii.eqb_spec " "%char d) as [<-|]; [|reflexivity].
    exfalso. apply Hno. exists ""%string, name. reflexivity. }
  rewrite Hstrip, IH; [reflexivity|].
  intros Hocc. apply Hno, occurs_cons, Hocc.
Qed.

Lemma append_length (s t : string) :
  String.length (s +:+ t) = (String.length s + String.length t)%nat.
Proof. induction s as [|c s IH]; [reflexivity|]. rewrite append_cons. simpl. lia. Qed.

Lemma append_assoc (s t u : string) : (s +:+ t) +:+ u = s +:+ t +:+ u.
Proof. induction s as [|c s IH]; [reflexivity|]. rewrite !append_cons, IH. reflexivity. Qed.

Lemma normalize_app (a b : string) :
  normalize_restaurant_name (a +:+ b)
  = normalize_restaurant_name a +:+ normalize_restaurant_name b.
Proof.
  induction a as [|c a IH]; [reflexivity|].
  rewrite append_cons, !normalize_cons.
  destruct (isalnum_char (lower_char c)); [rewrite append_cons, IH; reflexivity | exact IH].
Qed.

Lemma normalize_all_chars (x : string) :
  all_chars (fun c => isalnum_char c && Ascii.eqb (lower_char c) c)
    (normalize_restaurant_name x) = true.
Proof.
  induction x as [|c x IH]; [reflexivity|].
  rewrite normalize_cons.
  destruct (isalnum_char (lower_char c)) eqn:Halnum; [|exact IH].
  cbn [all_chars]. rewrite Halnum, lower_char_idem, Ascii.eqb_refl, IH. reflexivity.
Qed.

End NameFacts.

Section SplitFacts.
Import PyStr.

Lemma partition_first_app_l (s t p q : string) :
  partition_first ". " s = Some (p, q) ->
  partition_first ". " (s +:+ t) = Some (p, q +:+ t).
Proof.
  revert p. induction s as [|c s IH]; intros p; [discriminate|].
  rewrite (partition_first_unfold _ (String c s)).
  destruct (strip_prefix ". " (String c s)) as [r|] eqn:Hstrip.
  - intros [= <- <-]. apply strip_prefix_spec in Hstrip. rewrite Hstrip.
    rewrite append_assoc. reflexivity.
  - destruct (partition_first ". " s) as [[p' q']|] eqn:Hrec; [|discriminate].
    intros [= <- <-]. rewrite append_cons, partition_first_unfold.
    rewrite (IH p' eq_refl).
    destruct s as [|d s]; [discriminate Hrec|].
    rewrite append_cons. cbn [strip_prefix] in Hstrip |- *.
    destruct (Ascii.eqb "." c); [|reflexivity].
    destruct (Ascii.eqb " " d); [discriminate Hstrip | reflexivity].
Qed.

End SplitFacts.

(** ** The loaded index *)

Section IndexFacts.
Import PyStr.
Implicit Types (h idx : gmap string (list string)) (lines : list string).

Lemma load_lines_returns_well_formed lines : forall h idx,
  load_lines h lines = Return idx -> Forall (occurs ". ") lines.
Proof.
  induction lines as [|line rest IH]; intros h idx Hload; [constructor|].
  cbn [load_lines] in Hload.
  destruct (partition_first ". " line) as [[n r]|] eqn:Hsplit.
  - destruct (add_line_split h _ _ _ Hsplit) as (h' & Hadd & _).
    rewrite Hadd in Hload. cbn [bind] in Hload. constructor.
    + exists n, r. apply (partition_first_Some _ _ _ _ Hsplit).
    + exact (IH _ _ Hload).
  - rewrite (add_line_no_delimiter _ _ Hsplit) in Hload. discriminate.
Qed.

(** What a successful load leaves under each key. *)
Lemma loaded_lookup lines idx :
  fetch_restaurant_reviews_hash lines = Return idx ->
  forall key, idx !! key =
    match reviews_in_file_order key lines with
    | [] => None
    | reviews => Some reviews
    end.
Proof.
  intros Hload key.
  pose proof (load_lines_returns_well_formed _ _ _ Hload) as Hall.
  destruct (load_lines_well_formed ∅ lines Hall) as (idx' & Hload' & Hidx).
  unfold fetch_restaurant_reviews_hash in Hload. rewrite Hload in Hload'.
  injection Hload' as <-. rewrite Hidx, lookup_empty.
  destruct (reviews_in_file_order key lines); reflexivity.
Qed.

Lemma well_formed_loads lines :
  Forall (occurs ". ") lines -> returns (fetch_restaurant_reviews_hash lines).
Proof.
  intros Hall. destruct (load_lines_well_formed ∅ lines Hall) as (idx & Hload & _).
  exists idx. exact Hload.
Qed.

Lemma reviews_in_file_order_key key lines :
  reviews_in_file_order key lines <> [] ->
  exists name_part, normalize_restaurant_name name_part = key.
Proof.
  induction lines as [|line rest IH]; simpl; [intros Hne; congruence|].
  destruct (partition_first ". " line) as [[n r]|]; [|exact IH].
  destruct (decide _) as [Hkey|]; [eauto | exact IH].
Qed.

Lemma review_count_add_line h line h' :
  add_line h line = Return h' -> review_count h' = S (review_count h).
Proof.
  destruct (partition_first ". " line) as [[n r]|] eqn:Hsplit.
  2:{ rewrite (add_line_no_delimiter _ _ Hsplit). discriminate. }
  unfold add_line, split1. rewrite Hsplit. cbn [unpack2 bind fst snd].
  set (k := normalize_restaurant_name n). intros [= <-].
  assert (Hcomm : forall (m : gmap string (list string)) (j1 j2 : string)
                    (z1 z2 : list string) (y : nat),
             j1 <> j2 -> m !! j1 = Some z1 -> m !! j2 = Some z2 ->
             (length z1 + (length z2 + y) = length z2 + (length z1 + y))%nat)
    by (intros; lia).
  unfold review_count. destruct (decide (k ∈ dom h)) as [Hin|Hout].
  - apply elem_of_dom in Hin as [old Hold].
    rewrite lookup_total_alt, Hold. cbn [default].
    rewrite <- insert_delete_eq.
    rewrite map_fold_insert_L; [|apply Hcomm|apply lookup_delete_eq].
    rewrite <- (insert_delete_id h k old Hold) at 2.
    rewrite map_fold_insert_L; [|apply Hcomm|apply lookup_delete_eq].
    rewrite length_app. simpl. lia.
  - apply not_elem_of_dom in Hout.
    rewrite lookup_total_alt, lookup_insert_eq. cbn [default].
    rewrite insert_insert_eq.
    rewrite map_fold_insert_L; [|apply Hcomm|exact Hout].
    simpl. lia.
Qed.

Lemma review_count_load_lines lines : forall h idx,
  load_lines h lines = Return idx ->
  review_count idx = (review_count h + length lines)%nat.
Proof.
  induction lines as [|line rest IH]; intros h idx Hload.
  - injection Hload as <-. simpl. lia.
  - cbn [load_lines] in Hload.
    destruct (add_line h line) as [h'|e] eqn:Hadd; [|discriminate].
    cbn [bind] in Hload. rewrite (IH _ _ Hload), (review_count_add_line _ _ _ Hadd).
    simpl. lia.
Qed.

End IndexFacts.

Section LoadFacts.
Import PyStr.
Implicit Types (h idx : gmap string (list string)) (lines : list string).

Lemma load_lines_app lines1 lines2 : forall h,
  load_lines h (lines1 ++ lines2) =
  let! h' := load_lines h lines1 in load_lines h' lines2.
Proof.
  induction lines1 as [|line rest IH]; intros h; [reflexivity|].
  cbn [app load_lines]. destruct (add_line h line) as [h'|e]; [|reflexivity].
  cbn [bind]. apply IH.
Qed.

Lemma reviews_in_file_order_swap key a b lines :
  ~ (line_has_key key a /\ line_has_key key b) ->
  reviews_in_file_order key (a :: b :: lines) = reviews_in_file_order key (b :: a :: lines).
Proof.
  intros Hnot. cbn [reviews_in_file_order].
  destruct (partition_first ". " a) as [[na ra]|] eqn:Ha;
    destruct (partition_first ". " b) as [[nb rb]|] eqn:Hb; try reflexivity.
  destruct (decide (normalize_restaurant_name na = key)) as [Hka|];
    destruct (decide (normalize_restaurant_name nb = key)) as [Hkb|]; try reflexivity.
  exfalso. apply Hnot. split; eexists _, _; eauto.
Qed.

Lemma load_equal_when_reviews_agree lines1 lines2 :
  Forall (occurs ". ") lines1 -> Forall (occurs ". ") lines2 ->
  (forall key, reviews_in_file_order key lines1 = reviews_in_file_order key lines2) ->
  fetch_restaurant_reviews_hash lines1 = fetch_restaurant_reviews_hash lines2.
Proof.
  intros H1 H2 Hsame.
  destruct (well_formed_loads _ H1) as [idx1 Hl1].
  destruct (well_formed_loads _ H2) as [idx2 Hl2].
  rewrite Hl1, Hl2. f_equal. apply map_eq. intros key.
  rewrite (loaded_lookup _ _ Hl1), (loaded_lookup _ _ Hl2), Hsame. reflexivity.
Qed.

Lemma load_raises_without_well_formed lines :
  ~ Forall (occurs ". ") lines -> fetch_restaurant_reviews_hash lines = Raise ValueError.
Proof.
  intros Hnot. destruct (fetch_restaurant_reviews_hash lines) as [idx|e] eqn:Hload.
  - exfalso. apply Hnot. exact (load_lines_returns_well_formed _ _ _ Hload).
  - f_equal. exact (load_lines_raises_ValueError _ _ _ Hload).
Qed.

Lemma well_formed_or_not lines :
  Forall (occurs ". ") lines \/ ~ Forall (occurs ". ") lines.
Proof.
  destruct (fetch_restaurant_reviews_hash lines) as [idx|e] eqn:Hload.
  - left. exact (load_lines_returns_well_formed _ _ _ Hload).
  - right. intros Hall. destruct (well_formed_loads _ Hall) as [idx Hidx]. congruence.
Qed.

End LoadFacts.

(** X1. Round trip for any name. When a corpus holds the line
    [name + ". " + review], the name itself contains no ". ", every other
    line is well formed and none of them has the same normalized name,
    then the corpus loads and [fetch_restaurant_data] returns exactly
    [{query: [review]}] for every query that normalizes like the name. *)
Theorem load_then_fetch_returns_the_review
    (name review : string) (before after : list string) :
  ~ PyStr.occurs ". " name ->
  Forall (PyStr.occurs ". ") (before ++ after) ->
  (forall line, line ∈ before ++ after ->
     ~ line_has_key (normalize_restaurant_name name) line) ->
  exists idx,
    fetch_restaurant_reviews_hash (before ++ (name +:+ ". " +:+ review) :: after)
    = Return idx
    /\ forall query,
         normalize_restaurant_name query = normalize_restaurant_name name ->
         fetch_restaurant_data idx query = {[ query := [review] ]}.
Proof.
  intros Hname Hall Hothers.
  apply Forall_app in Hall as [Hbefore Hafter].
  assert (Hlines : Forall (PyStr.occurs ". ")
                     (before ++ (name +:+ ". " +:+ review) :: after)).
  { apply Forall_app. split; [exact Hbefore|]. constructor; [|exact Hafter].
    exists name, review. reflexivity. }
  destruct (well_formed_loads _ Hlines) as [idx Hload].
  exists idx. split; [exact Hload|]. intros query Hquery.
  rewrite (fetch_restaurant_data_loaded _ _ _ Hload Hlines), Hquery.
  rewrite reviews_in_file_order_app. cbn [reviews_in_file_order].
  rewrite (partition_first_join _ _ Hname), decide_True by reflexivity.
  rewrite !reviews_in_file_order_none; [reflexivity| |];
    intros line Hin; apply Hothers; set_solver.
Qed.

Lemma load_then_fetch_returns_the_review_witness :
  exists idx,
    fetch_restaurant_reviews_hash
      (["Pasta Place. Great food."%string]
         ++ ("Applebee's" +:+ ". " +:+ "Average.")%string :: [])
    = Return idx
    /\ forall query,
         normalize_restaurant_name query = normalize_restaurant_name "Applebee's" ->
         fetch_restaurant_data idx query = {[ query := ["Average."%string] ]}.
Proof.
  apply (load_then_fetch_returns_the_review
           "Applebee's" "Average." ["Pasta Place. Great food."%string] []).
  - apply partition_first_None. reflexivity.
  - repeat constructor. exists "Pasta Place"%string, "Great food."%string. reflexivity.
  - intros line Hin (n & r & Hsplit & Hkey).
    rewrite app_nil_r in Hin. apply list_elem_of_singleton in Hin. subst line.
    injection Hsplit as <- <-. discriminate Hkey.
Defined.

(** X2. A name that itself contains ". " is cut inside the name: the line
    [name + ". " + review] is split at the first ". " of the name, so the
    review is filed under the normalized text before it, and the rest of
    the name stays in front of the review text. *)
Theorem name_containing_delimiter_is_cut (name review : string) :
  PyStr.occurs ". " name ->
  exists name_part rest,
    name = name_part +:+ ". " +:+ rest
    /\ PyStr.unpack2 (PyStr.split1 (name +:+ ". " +:+ review) ". ")
       = Return (name_part, rest +:+ ". " +:+ review)
    /\ fetch_restaurant_reviews_hash [name +:+ ". " +:+ review]
       = Return {[ normalize_restaurant_name name_part := [rest +:+ ". " +:+ review] ]}.
Proof.
  intros Hocc.
  destruct (partition_first_occurs _ _ Hocc) as (p & q & Hsplit).
  pose proof (partition_first_app_l _ (". " +:+ review) _ _ Hsplit) as Hline.
  exists p, q. split; [apply (partition_first_Some _ _ _ _ Hsplit)|].
  split; [unfold PyStr.split1; rewrite Hline; reflexivity|].
  unfold fetch_restaurant_reviews_hash. cbn [load_lines].
  destruct (add_line_split ∅ _ _ _ Hline) as (h' & -> & Hh'). cbn [bind load_lines].
  f_equal. apply map_eq. intros key. rewrite Hh', lookup_empty.
  destruct (decide (key = normalize_restaurant_name p)) as [->|Hne].
  - rewrite lookup_singleton_eq. reflexivity.
  - rewrite lookup_singleton_ne by congruence. reflexivity.
Qed.

Lemma name_containing_delimiter_is_cut_witness :
  exists name_part rest,
    "St. Elmo Steak House"%string = name_part +:+ ". " +:+ rest
    /\ PyStr.unpack2 (PyStr.split1 ("St. Elmo Steak House" +:+ ". " +:+ "Good.") ". ")
       = Return (name_part, rest +:+ ". " +:+ "Good.")
    /\ fetch_restaurant_reviews_hash ["St. Elmo Steak House" +:+ ". " +:+ "Good."]
       = Return {[ normalize_restaurant_name name_part := [rest +:+ ". " +:+ "Good."] ]}.
Proof.
  apply (name_containing_delimiter_is_cut "St. Elmo Steak House" "Good.").
  exists "St"%string, "Elmo Steak House"%string. reflexivity.
Defined.

(** X3. Every character of a normalized name is alphanumeric and is its
    own lowercase. *)
Theorem normalized_name_is_lowercase_alphanumeric (restaurant_name : string) :
  all_chars
    (fun c => PyStr.isalnum_char c && Ascii.eqb (PyStr.lower_char c) c)
    (normalize_restaurant_name restaurant_name) = true.
Proof. apply normalize_all_chars. Qed.

(** X4. Normalization distributes over concatenation: the normal form of
    [a + b] is the normal form of [a] followed by that of [b]. *)
Theorem normalize_concatenation (a b : string) :
  normalize_restaurant_name (a +:+ b)
  = normalize_restaurant_name a +:+ normalize_restaurant_name b.
Proof. apply normalize_app. Qed.

(** X5. In a loaded index every key is a normalized name (normalizing it
    again changes nothing) and no key holds an empty list. *)
Theorem loaded_keys_are_normalized
    (lines : list string) (idx : gmap string (list string))
    (key : string) (reviews : list string) :
  fetch_restaurant_reviews_hash lines = Return idx ->
  idx !! key = Some reviews ->
  normalize_restaurant_name key = key /\ reviews <> [].
Proof.
  intros Hload Hkey. rewrite (loaded_lookup _ _ Hload) in Hkey.
  destruct (reviews_in_file_order key lines) as [|r rs] eqn:Hrev; [discriminate|].
  injection Hkey as <-. split; [|discriminate].
  destruct (reviews_in_file_order_key key lines) as [n <-]; [congruence|].
  apply normalize_fixed.
Qed.

Lemma loaded_keys_are_normalized_witness :
  normalize_restaurant_name "pastaplace" = "pastaplace"%string
  /\ ["Great food."%string; "Slow."%string] <> [].
Proof.
  apply (loaded_keys_are_normalized
           ["Pasta Place. Great food."%string; "PASTA-PLACE. Slow."%string]
           {[ "pastaplace"%string := ["Great food."%string; "Slow."%string] ]}).
  - vm_compute. reflexivity.
  - vm_compute. reflexivity.
Defined.

(** X6. Loading keeps every review exactly once: the lists of a loaded
    index hold, together, as many reviews as the corpus has lines. *)
Theorem load_keeps_every_review (lines : list string) (idx : gmap string (list string)) :
  fetch_restaurant_reviews_hash lines = Return idx ->
  review_count idx = length lines.
Proof.
  intros Hload. rewrite (review_count_load_lines _ _ _ Hload).
  unfold review_count. rewrite map_fold_empty. reflexivity.
Qed.

Lemma load_keeps_every_review_witness :
  review_count {[ "pastaplace"%string := ["Great food."%string; "Slow."%string] ]}
  = length ["Pasta Place. Great food."%string; "PASTA-PLACE. Slow."%string].
Proof.
  apply (load_keeps_every_review
           ["Pasta Place. Great food."%string; "PASTA-PLACE. Slow."%string]).
  vm_compute. reflexivity.
Defined.

(** X7. Loading two corpora one after the other is loading the second
    into the index of the first, and under every key the result holds the
    reviews of the first corpus followed by those of the second. *)
Theorem load_concatenation
    (lines1 lines2 : list string) (idx1 idx2 : gmap string (list string)) :
  fetch_restaurant_reviews_hash lines1 = Return idx1 ->
  fetch_restaurant_reviews_hash lines2 = Return idx2 ->
  exists idx,
    fetch_restaurant_reviews_hash (lines1 ++ lines2) = Return idx
    /\ load_lines idx1 lines2 = Return idx
    /\ forall key,
         default [] (idx !! key) = default [] (idx1 !! key) ++ default [] (idx2 !! key).
Proof.
  intros H1 H2.
  pose proof (load_lines_returns_well_formed _ _ _ H1) as Hwf1.
  pose proof (load_lines_returns_well_formed _ _ _ H2) as Hwf2.
  destruct (well_formed_loads (lines1 ++ lines2)) as [idx Hload];
    [apply Forall_app; split; assumption|].
  exists idx. split; [exact Hload|]. split.
  - unfold fetch_restaurant_reviews_hash in Hload, H1.
    rewrite load_lines_app, H1 in Hload. exact Hload.
  - intros key.
    rewrite (loaded_lookup _ _ Hload), (loaded_lookup _ _ H1), (loaded_lookup _ _ H2).
    rewrite reviews_in_file_order_app.
    destruct (reviews_in_file_order key lines1), (reviews_in_file_order key lines2);
      cbn; rewrite ?app_nil_r; reflexivity.
Qed.

Lemma load_concatenation_witness :
  exists idx,
    fetch_restaurant_reviews_hash
      (["Pasta Place. Great food."%string] ++ ["PASTA-PLACE. Slow."%string]) = Return idx
    /\ load_lines {[ "pastaplace"%string := ["Great food."%string] ]}
         ["PASTA-PLACE. Slow."%string] = Return idx
    /\ forall key,
         default [] (idx !! key)
         = default [] (({[ "pastaplace"%string := ["Great food."%string] ]}
                        : gmap string (list string)) !! key)
           ++ default [] (({[ "pastaplace"%string := ["Slow."%string] ]}
                           : gmap string (list string)) !! key).
Proof.
  apply (load_concatenation
           ["Pasta Place. Great food."%string] ["PASTA-PLACE. Slow."%string]);
    vm_compute; reflexivity.
Defined.

(** X8. Two neighbouring lines that do not have the same normalized name
    can be swapped without changing the outcome of the load: the same
    index, or the same failure. *)
Theorem load_swap_unrelated_lines (before after : list string) (a b : string) :
  (forall key, ~ (line_has_key key a /\ line_has_key key b)) ->
  fetch_restaurant_reviews_hash (before ++ a :: b :: after)
  = fetch_restaurant_reviews_hash (before ++ b :: a :: after).
Proof.
  intros Hunrelated.
  assert (Hwf : Forall (PyStr.occurs ". ") (before ++ a :: b :: after)
                <-> Forall (PyStr.occurs ". ") (before ++ b :: a :: after)).
  { rewrite !Forall_app, !Forall_cons. tauto. }
  destruct (well_formed_or_not (before ++ a :: b :: after)) as [Hall|Hnot].
  - apply load_equal_when_reviews_agree; [exact Hall | apply Hwf, Hall |].
    intros key. rewrite !reviews_in_file_order_app.
    f_equal. apply reviews_in_file_order_swap, Hunrelated.
  - rewrite (load_raises_without_well_formed _ Hnot).
    symmetry. apply load_raises_without_well_formed. rewrite <- Hwf. exact Hnot.
Qed.

Lemma load_swap_unrelated_lines_witness :
  fetch_restaurant_reviews_hash
    ([] ++ "Pasta Place. Great food."%string :: "Applebee's. Average."%string :: [])
  = fetch_restaurant_reviews_hash
      ([] ++ "Applebee's. Average."%string :: "Pasta Place. Great food."%string :: []).
Proof.
  apply (load_swap_unrelated_lines [] []).
  intros key [(n1 & r1 & Hs1 & Hk1) (n2 & r2 & Hs2 & Hk2)].
  injection Hs1 as <- <-. injection Hs2 as <- <-. subst key. discriminate Hk2.
Defined.

(** ** The scorer: success and failures *)

Section ScoreOutcomes.
Implicit Types (food cs : list Z).

Lemma spec_sum_returns_inv food : forall cs acc,
  returns (spec_sum (zip food cs) acc) -> all_sqrt_defined food cs.
Proof.
  induction food as [|f food IH]; intros cs acc Hret i x y Hx Hy; [discriminate Hx|].
  destruct cs as [|c cs]; [discriminate Hy|].
  cbn [zip_with spec_sum] in Hret. unfold spec_term in Hret. cbn [fst snd] in Hret.
  destruct (PyFloat.math_sqrt (f ^ 2 * c)) as [root|e] eqn:Hroot;
    [|destruct Hret; discriminate].
  cbn [bind] in Hret. destruct i as [|i].
  - injection Hx as <-. injection Hy as <-.
    apply math_sqrt_returns_iff. exists root. exact Hroot.
  - exact (IH _ _ Hret i x y Hx Hy).
Qed.

Lemma spec_score_returns_inv food cs :
  returns (spec_score food cs) -> all_sqrt_defined food cs.
Proof.
  unfold spec_score. intros [v Hv].
  destruct (spec_sum (zip food cs) (S754_zero false)) as [total|e] eqn:Hsum;
    [|discriminate].
  apply (spec_sum_returns_inv food cs (S754_zero false)). rewrite Hsum. eexists; reflexivity.
Qed.

Lemma calculate_overall_score_long (name : string) food cs :
  (length food <= length cs)%nat ->
  calculate_overall_score name food cs =
  let! value := spec_score food cs in Return {[ name := PyFloat.format_3f value ]}.
Proof.
  intros Hle. rewrite calculate_overall_score_unfold, formatted_score_spec by exact Hle.
  destruct (spec_score food cs); reflexivity.
Qed.

Lemma calculate_overall_score_short (name : string) food cs :
  (length cs < length food)%nat ->
  calculate_overall_score name food cs =
  let! total := spec_sum (zip food cs) (S754_zero false) in Raise IndexError.
Proof.
  intros Hlt. rewrite calculate_overall_score_unfold, formatted_score_short by exact Hlt.
  destruct (spec_sum _ _); reflexivity.
Qed.

Lemma calculate_overall_score_empty (name : string) cs :
  calculate_overall_score name [] cs = Raise ZeroDivisionError.
Proof. reflexivity. Qed.

End ScoreOutcomes.

(** X9. [calculate_overall_score] returns a score exactly when
    [food_scores] is not empty, [customer_service_scores] is at least as
    long, and every [food_scores[i]^2 * customer_service_scores[i]] is
    non-negative and converts to a float. *)
Theorem calculate_overall_score_returns_iff
    (restaurant_name : string) (food_scores customer_service_scores : list Z) :
  Z.of_nat (length food_scores) <= sys_maxsize ->
  returns (calculate_overall_score restaurant_name food_scores customer_service_scores)
  <-> food_scores <> []
      /\ (length food_scores <= length customer_service_scores)%nat
      /\ all_sqrt_defined food_scores customer_service_scores.
Proof.
  intros Hmax. split.
  - intros [result Hresult].
    destruct food_scores as [|f food]; [discriminate Hresult|].
    split; [discriminate|].
    destruct (Nat.le_gt_cases (length (f :: food)) (length customer_service_scores))
      as [Hle|Hlt].
    + split; [exact Hle|]. rewrite calculate_overall_score_long in Hresult by exact Hle.
      apply spec_score_returns_inv.
      destruct (spec_score (f :: food) customer_service_scores);
        [eexists; reflexivity | discriminate].
    + rewrite calculate_overall_score_short in Hresult by exact Hlt.
      destruct (spec_sum _ _); discriminate.
  - intros (Hne & Hle & Hall). rewrite calculate_overall_score_long by exact Hle.
    destruct (spec_score_returns _ _ Hne Hmax Hall) as [value ->].
    eexists; reflexivity.
Qed.

Lemma calculate_overall_score_returns_iff_witness :
  returns (calculate_overall_score "Applebee's" [3; 4] [5; 1; 2])
  <-> [3; 4] <> ([] : list Z)
      /\ (length [3; 4] <= length [5; 1; 2])%nat
      /\ all_sqrt_defined [3; 4] [5; 1; 2].
Proof.
  apply (calculate_overall_score_returns_iff "Applebee's" [3; 4] [5; 1; 2]).
  vm_compute. discriminate.
Defined.

(** X10. Which exception means what: [ZeroDivisionError] is raised exactly
    when [food_scores] is empty, and [IndexError] exactly when
    [food_scores] is not empty, [customer_service_scores] is shorter and
    [math.sqrt] accepts every pair that exists. *)
Theorem calculate_overall_score_exceptions
    (restaurant_name : string) (food_scores customer_service_scores : list Z) :
  Z.of_nat (length food_scores) <= sys_maxsize ->
  (calculate_overall_score restaurant_name food_scores customer_service_scores
   = Raise ZeroDivisionError
   <-> food_scores = [])
  /\ (calculate_overall_score restaurant_name food_scores customer_service_scores
      = Raise IndexError
      <-> food_scores <> []
          /\ (length customer_service_scores < length food_scores)%nat
          /\ all_sqrt_defined food_scores customer_service_scores).
Proof.
  intros Hmax.
  destruct food_scores as [|f food].
  { rewrite calculate_overall_score_empty. split.
    - split; reflexivity.
    - split; [discriminate | intros [Hne _]; congruence]. }
  assert (Hne : f :: food <> []) by discriminate.
  destruct (Nat.le_gt_cases (length (f :: food)) (length customer_service_scores))
    as [Hle|Hlt].
  - rewrite calculate_overall_score_long by exact Hle.
    destruct (spec_score (f :: food) customer_service_scores) as [value|e] eqn:Hscore;
      cbn [bind].
    + split; (split; [discriminate|]); [discriminate | intros (_ & Hshort & _); lia].
    + destruct (spec_score_raises _ _ _ Hne Hmax Hscore) as [-> | ->];
        (split; (split; [discriminate|]); [discriminate | intros (_ & Hshort & _); lia]).
  - rewrite calculate_overall_score_short by exact Hlt.
    destruct (spec_sum _ _) as [total|e] eqn:Hsum; cbn [bind].
    + split; [split; discriminate|]. split; [intros _|reflexivity].
      split; [exact Hne|]. split; [exact Hlt|].
      apply (spec_sum_returns_inv _ _ (S754_zero false)). rewrite Hsum.
      eexists; reflexivity.
    + assert (Hraise : forall v, spec_sum (zip (f :: food) customer_service_scores)
                                   (S754_zero false) <> Return v)
        by (intros v; rewrite Hsum; discriminate).
      destruct (spec_sum_raises _ _ _ Hsum) as [-> | ->];
        (split; [split; discriminate|]; split; [discriminate|]);
        intros (_ & _ & Hall);
        destruct (spec_sum_returns _ _ (S754_zero false) Hall) as [v Hv];
        exfalso; exact (Hraise v Hv).
Qed.

Lemma calculate_overall_score_exceptions_witness :
  (calculate_overall_score "Applebee's" [3; 4] [5] = Raise ZeroDivisionError
   <-> [3; 4] = ([] : list Z))
  /\ (calculate_overall_score "Applebee's" [3; 4] [5] = Raise IndexError
      <-> [3; 4] <> ([] : list Z)
          /\ (length [5] < length [3; 4])%nat
          /\ all_sqrt_defined [3; 4] [5]).
Proof.
  apply (calculate_overall_score_exceptions "Applebee's" [3; 4] [5]).
  vm_compute. discriminate.
Defined.

(** ** The scorer: the value returned *)

Section ScoreValues.
Implicit Types (food cs : list Z).

Lemma spec_sum_zero food : forall cs,
  (forall i f s, food !! i = Some f -> cs !! i = Some s -> f = 0 \/ s = 0) ->
  spec_sum (zip food cs) (S754_zero false) = Return (S754_zero false).
Proof.
  induction food as [|f food IH]; intros cs Hzero; [reflexivity|].
  destruct cs as [|c cs]; [reflexivity|].
  cbn [zip_with spec_sum]. unfold spec_term. cbn [fst snd].
  assert (Hprod : f ^ 2 * c = 0).
  { destruct (Hzero 0%nat f c eq_refl eq_refl) as [-> | ->];
      [reflexivity | apply Z.mul_0_r]. }
  rewrite Hprod.
  change (let! root := PyFloat.math_sqrt 0 in
          spec_sum (zip food cs) (PyFloat.add (S754_zero false) root))
    with (spec_sum (zip food cs) (S754_zero false)).
  apply IH. intros i x y Hx Hy. exact (Hzero (S i) x y Hx Hy).
Qed.

Lemma spec_score_zero food cs :
  food <> [] -> Z.of_nat (length food) <= sys_maxsize ->
  (forall i f s, food !! i = Some f -> cs !! i = Some s -> f = 0 \/ s = 0) ->
  spec_score food cs = Return (S754_zero false).
Proof.
  intros Hne Hlen Hzero. unfold spec_score.
  rewrite (spec_sum_zero food cs Hzero). cbn [bind].
  change (PyFloat.of_int 10) with (Return (S754_finite false 5629499534213120 (-49))).
  cbn [bind].
  assert (Hpos : 0 < Z.of_nat (length food)) by (destruct food; [congruence | simpl; lia]).
  destruct (length_bits food Hne Hlen) as [_ Hbits].
  destruct (of_int_positive _ Hpos Hbits) as (mn & en & Hn & Hmagn & Hen & H53n).
  rewrite Hn. cbn [bind].
  replace (PyFloat.math_sqrt 125) with (Return (S754_finite false 6293971818901970 (-49)))
    by (vm_compute; reflexivity).
  cbn [bind].
  pose proof (Zdigits2_pos _ Hpos) as Hdn.
  assert (Hdn63 : Zdigits2 (Z.of_nat (length food)) <= 63)
    by (apply Zdigits2_le_of_lt; unfold sys_maxsize in Hlen; lia).
  destruct (mul_finite_magnitude mn 6293971818901970 en (-49)) as (md & ed & Hd & Hmagd).
  { change (Zdigits2 (Zpos 6293971818901970)) with 53. lia. }
  { change (Zdigits2 (Zpos 6293971818901970)) with 53. lia. }
  { lia. }
  rewrite Hd. reflexivity.
Qed.

Lemma div_sign (s : bool) (mx my : positive) (ex ey : Z) :
  match SFdiv PyFloat.prec PyFloat.emax (S754_finite s mx ex) (S754_finite s my ey) with
  | S754_zero s' | S754_infinity s' | S754_finite s' _ _ => s' = false
  | S754_nan => True
  end.
Proof.
  cbn [SFdiv].
  destruct (SFdiv_core_binary _ _ _ _ _ _) as [[mz ez] lz].
  rewrite xorb_nilpotent. exact (binary_round_aux_sign false mz ez lz).
Qed.

(** The value of the formula is never negative, not even [-0.0]. *)
Lemma spec_score_sign food cs (value : PyFloat.float) :
  food <> [] -> Z.of_nat (length food) <= sys_maxsize ->
  spec_score food cs = Return value ->
  PyFloat.format_3f value = PyFloat.fixed3 0
  \/ exists m e, PyFloat.format_3f value = PyFloat.fixed3 (PyFloat.thousandths m e).
Proof.
  intros Hne Hlen Hscore.
  pose proof (spec_score_finite food cs value Hne Hlen Hscore) as Hfinite.
  revert Hscore. unfold spec_score.
  destruct (spec_sum _ _) as [total|err] eqn:Hsum; [|discriminate]. cbn [bind].
  change (PyFloat.of_int 10) with (Return (S754_finite false 5629499534213120 (-49))).
  cbn [bind].
  destruct (PyFloat.of_int _) as [n|err] eqn:Hn; [|discriminate]. cbn [bind].
  replace (PyFloat.math_sqrt 125) with (Return (S754_finite false 6293971818901970 (-49)))
    by (vm_compute; reflexivity).
  cbn [bind]. unfold PyFloat.truediv.
  destruct (PyFloat.is_zero _) eqn:Hz; [discriminate|]. intros [= Hvalue].
  assert (Hpos : 0 < Z.of_nat (length food)) by (destruct food; [congruence | simpl; lia]).
  destruct (of_int_returns_positive _ _ Hpos Hn) as (mn & en & -> & Hmagn & Hen & H53n).
  pose proof (Zdigits2_pos _ Hpos) as Hdn.
  assert (Hdn63 : Zdigits2 (Z.of_nat (length food)) <= 63)
    by (apply Zdigits2_le_of_lt; unfold sys_maxsize in Hlen; lia).
  destruct (mul_finite_magnitude mn 6293971818901970 en (-49)) as (md & ed & Hd & Hmagd).
  { change (Zdigits2 (Zpos 6293971818901970)) with 53. lia. }
  { change (Zdigits2 (Zpos 6293971818901970)) with 53. lia. }
  { lia. }
  rewrite Hd in Hvalue.
  pose proof (spec_sum_bounded _ _ _ Hsum ltac:(left; reflexivity)) as Htotal.
  destruct Htotal as [->|(mt & et & -> & (Het & Hnt & H53t) & Hvt)].
  { left. rewrite <- Hvalue. reflexivity. }
  rewrite <- (Z.mul_1_l (2 ^ (567 + 1074))) in Hvt.
  pose proof (at_most_magnitude mt et 1 567 0 Het ltac:(lia) ltac:(lia) Hvt ltac:(lia))
    as Hmagt.
  destruct (mul_finite_magnitude mt 5629499534213120 et (-49)) as (mx & ex & Hx & Hmagx).
  { change (Zdigits2 (Zpos 5629499534213120)) with 53. lia. }
  { change (Zdigits2 (Zpos 5629499534213120)) with 53. lia. }
  { pose proof (Zdigits2_pos (Zpos mt) eq_refl). lia. }
  rewrite Hx in Hvalue.
  pose proof (div_sign false mx md ex ed) as Hsign. rewrite Hvalue in Hsign.
  destruct value as [s|s| |s m e]; try discriminate Hfinite; subst s.
  - left. reflexivity.
  - right. exists m, e. reflexivity.
Qed.

Lemma fixed3_unsigned (k : Z) : unsigned_three_decimals (PyFloat.fixed3 k).
Proof.
  destruct (decimal_all_digits (k / 1000)) as [Hne Hall].
  exists (PyFloat.decimal (k / 1000)), (PyFloat.digit (k / 100 mod 10)),
    (PyFloat.digit (k / 10 mod 10)), (PyFloat.digit (k mod 10)).
  split; [reflexivity|]. split; [exact Hne|]. split; [exact Hall|].
  repeat split; apply digit_is_digit; apply Z.mod_pos_bound; lia.
Qed.

End ScoreValues.

(** X11. Whenever [calculate_overall_score] returns, the result is the
    one-entry dict [{restaurant_name: s}] and [s] is digits, a point and
    three digits: never signed, never ["inf"], ["nan"] or an exponent. *)
Theorem calculate_overall_score_result_shape
    (restaurant_name : string) (food_scores customer_service_scores : list Z)
    (result : gmap string string) :
  Z.of_nat (length food_scores) <= sys_maxsize ->
  calculate_overall_score restaurant_name food_scores customer_service_scores
  = Return result ->
  exists s, result = {[ restaurant_name := s ]} /\ unsigned_three_decimals s.
Proof.
  intros Hmax Hresult.
  destruct food_scores as [|f food]; [discriminate Hresult|].
  assert (Hne : f :: food <> []) by discriminate.
  destruct (Nat.le_gt_cases (length (f :: food)) (length customer_service_scores))
    as [Hle|Hlt].
  - rewrite calculate_overall_score_long in Hresult by exact Hle.
    destruct (spec_score (f :: food) customer_service_scores) as [value|e] eqn:Hscore;
      [|discriminate].
    injection Hresult as <-. exists (PyFloat.format_3f value). split; [reflexivity|].
    destruct (spec_score_sign _ _ _ Hne Hmax Hscore) as [-> | (m & e & ->)];
      apply fixed3_unsigned.
  - rewrite calculate_overall_score_short in Hresult by exact Hlt.
    destruct (spec_sum _ _); discriminate.
Qed.

Lemma calculate_overall_score_result_shape_witness :
  exists s, ({[ "Applebee's" := "4.789" ]} : gmap string string) = {[ "Applebee's" := s ]}
            /\ unsigned_three_decimals s.
Proof.
  apply (calculate_overall_score_result_shape "Applebee's" [3; 4] [5; 1; 2]).
  - vm_compute. discriminate.
  - vm_compute. reflexivity.
Defined.

(** X12. When every pair has a food score of 0 or a customer service score
    of 0, the overall score is ["0.000"], however many pairs there are. *)
Theorem calculate_overall_score_zero_products
    (restaurant_name : string) (food_scores customer_service_scores : list Z) :
  food_scores <> [] ->
  (length food_scores <= length customer_service_scores)%nat ->
  Z.of_nat (length food_scores) <= sys_maxsize ->
  (forall i f s, food_scores !! i = Some f -> customer_service_scores !! i = Some s ->
                 f = 0 \/ s = 0) ->
  calculate_overall_score restaurant_name food_scores customer_service_scores
  = Return {[ restaurant_name := "0.000" ]}.
Proof.
  intros Hne Hle Hmax Hzero.
  rewrite calculate_overall_score_long by exact Hle.
  rewrite (spec_score_zero _ _ Hne Hmax Hzero). reflexivity.
Qed.

Lemma calculate_overall_score_zero_products_witness :
  calculate_overall_score "Applebee's" [0; 4; 0] [5; 0; 0]
  = Return {[ "Applebee's" := "0.000" ]}.
Proof.
  apply (calculate_overall_score_zero_products "Applebee's" [0; 4; 0] [5; 0; 0]).
  - discriminate.
  - simpl. lia.
  - vm_compute. discriminate.
  - intros [|[|[|i]]] f s Hf Hs; simpl in Hf, Hs; try discriminate;
      injection Hf as <-; injection Hs as <-; lia.
Defined.

(** ** The script and the wiring of [main] *)

(** X13. A corpus line without ". " stops the script while the module is
    loaded: the run ends with [ValueError] whatever the command line is,
    also when no query was given, and [main] is never called. *)
Theorem script_fails_on_malformed_corpus
    {chat_results : Type} (initiate_chats : agent -> list chat -> chat_results)
    (lines argv : list string) (line : string) :
  line ∈ lines -> ~ PyStr.occurs ". " line ->
  run_script initiate_chats lines argv = ModuleRaised ValueError.
Proof.
  intros Hin Hline. unfold run_script.
  rewrite load_raises_without_well_formed; [reflexivity|].
  intros Hall. apply Hline. exact (proj1 (Forall_forall _ _) Hall line Hin).
Qed.

Lemma script_fails_on_malformed_corpus_witness :
  run_script (fun _ chats => chats)
    ["Pasta Place. Great food."%string; "no delimiter here"%string] []
  = ModuleRaised ValueError.
Proof.
  apply (script_fails_on_malformed_corpus (fun _ chats => chats)
           ["Pasta Place. Great food."%string; "no delimiter here"%string] []
           "no delimiter here").
  - apply list_elem_of_In. right. left. reflexivity.
  - apply partition_first_None. reflexivity.
Defined.

(** X14. With a corpus that loads, the command line decides: without an
    argument after the program name the script stops at the assertion with
    its usage message; otherwise it runs [main] on the first argument and
    ignores the others. Indexing [sys.argv] never fails. *)
Theorem script_runs_main_on_first_argument
    {chat_results : Type} (initiate_chats : agent -> list chat -> chat_results)
    (lines argv : list string) :
  Forall (PyStr.occurs ". ") lines ->
  ((length argv <= 1)%nat ->
   run_script initiate_chats lines argv = AssertionError usage_message)
  /\ (forall program user_query others,
        argv = program :: user_query :: others ->
        run_script initiate_chats lines argv
        = Finished (main initiate_chats user_query))
  /\ (forall e, run_script initiate_chats lines argv <> ModuleRaised e).
Proof.
  intros Hall. unfold run_script.
  destruct (well_formed_loads _ Hall) as [idx ->].
  split; [|split].
  - intros Hlen. rewrite decide_False by lia. reflexivity.
  - intros program user_query others ->. reflexivity.
  - intros e. destruct argv as [|program [|user_query others]]; discriminate.
Qed.

Lemma script_runs_main_on_first_argument_witness :
  ((length ["main.py"%string; "How good is Subway?"%string; "extra"%string] <= 1)%nat ->
   run_script (fun _ chats => chats) ["Subway. Good."%string]
     ["main.py"%string; "How good is Subway?"%string; "extra"%string]
   = AssertionError usage_message)
  /\ (forall program user_query others,
        ["main.py"%string; "How good is Subway?"%string; "extra"%string]
        = program :: user_query :: others ->
        run_script (fun _ chats => chats) ["Subway. Good."%string]
          ["main.py"%string; "How good is Subway?"%string; "extra"%string]
        = Finished (main (fun _ chats => chats) user_query))
  /\ (forall e,
        run_script (fun _ chats => chats) ["Subway. Good."%string]
          ["main.py"%string; "How good is Subway?"%string; "extra"%string]
        <> ModuleRaised e).
Proof.
  apply (script_runs_main_on_first_argument (fun _ chats => chats)
           ["Subway. Good."%string]
           ["main.py"%string; "How good is Subway?"%string; "extra"%string]).
  repeat constructor. exists "Subway"%string, "Good."%string. reflexivity.
Defined.

(** X15. The wiring of [main] is consistent: every tool registered with an
    agent for suggestion is registered for execution on the entrypoint
    agent under the same name, the agent that suggests it is the recipient
    of one of the chats, and that agent's system message names the tool. *)
Theorem suggested_tools_are_executable (r : registration) (user_query : string) :
  r ∈ registered_for_llm ->
  {| registered_agent := entrypoint_agent; tool_name := tool_name r |}
    ∈ registered_for_execution
  /\ (exists c, c ∈ chat_queue user_query /\ recipient c = registered_agent r)
  /\ PyStr.occurs (tool_name r) (system_message (registered_agent r)).
Proof.
  intros Hin. apply list_elem_of_In in Hin.
  destruct Hin as [<- | [<- | []]]; cbn [registered_agent tool_name system_message].
  - split; [apply list_elem_of_In; left; reflexivity|]. split.
    + eexists. split; [apply list_elem_of_In; left; reflexivity | reflexivity].
    + exists "Identify the restaurant name from the given query and fetch the reviews for that restaurant using the "%string,
        " function. Return the raw JSON results only."%string.
      reflexivity.
  - split; [apply list_elem_of_In; right; left; reflexivity|]. split.
    + eexists. split; [apply list_elem_of_In; right; right; left; reflexivity | reflexivity].
    + exists ("Your are given a restaurant name and scores for the food and the customer service reviews, in the following format: `"
              +:+ review_scoring_format
              +:+ "`. Extract the food_scores and the customer_service_scores, then use the function `")%string,
        "` and return the result only. Make sure that there are as many food scores than custoemr service scores."%string.
      reflexivity.
Qed.

Lemma suggested_tools_are_executable_witness :
  {| registered_agent := entrypoint_agent; tool_name := "calculate_overall_score" |}
    ∈ registered_for_execution
  /\ (exists c, c ∈ chat_queue "How good is Subway?" /\ recipient c = scoring_agent)
  /\ PyStr.occurs "calculate_overall_score" (system_message scoring_agent).
Proof.
  apply (suggested_tools_are_executable
           {| registered_agent := scoring_agent; tool_name := "calculate_overall_score" |}
           "How good is Subway?").
  apply list_elem_of_In. right. left. reflexivity.
Defined.

(** ** Restaurants the corpus does not know, and the sign of food scores *)

Section Unknown.

Lemma reviews_in_file_order_some key lines line :
  line ∈ lines -> line_has_key key line -> reviews_in_file_order key lines <> [].
Proof.
  induction lines as [|l rest IH]; intros Hin Hkey; [inversion Hin|].
  cbn [reviews_in_file_order].
  apply list_elem_of_In in Hin. destruct Hin as [-> | Hin].
  - destruct Hkey as (n & r & -> & Hn). rewrite decide_True by exact Hn. discriminate.
  - apply list_elem_of_In in Hin. specialize (IH Hin Hkey).
    destruct (PyStr.partition_first ". " l) as [[n r]|]; [|exact IH].
    destruct (decide _); [discriminate | exact IH].
Qed.

Lemma singleton_list_map_inj (k : string) (v w : list string) :
  ({[ k := v ]} : gmap string (list string)) = {[ k := w ]} -> v = w.
Proof.
  intros Heq. apply (f_equal (fun m => m !! k)) in Heq.
  rewrite !lookup_singleton_eq in Heq. congruence.
Qed.

Lemma spec_sum_opp food : forall cs acc,
  spec_sum (zip (map Z.opp food) cs) acc = spec_sum (zip food cs) acc.
Proof.
  induction food as [|f food IH]; intros cs acc; [reflexivity|].
  destruct cs as [|c cs]; [reflexivity|].
  cbn [map zip_with spec_sum]. unfold spec_term. cbn [fst snd].
  replace ((- f) ^ 2) with (f ^ 2) by lia.
  destruct (PyFloat.math_sqrt (f ^ 2 * c)) as [root|e]; [|reflexivity].
  cbn [bind]. apply IH.
Qed.

End Unknown.

(** X16. After a successful load, [fetch_restaurant_data] answers
    [{query: []}] exactly for the queries whose normalized name is the
    name of no line of the corpus; it never fails for them. *)
Theorem fetch_unknown_restaurant
    (lines : list string) (idx : gmap string (list string)) (query : string) :
  fetch_restaurant_reviews_hash lines = Return idx ->
  fetch_restaurant_data idx query = {[ query := [] ]}
  <-> forall line, line ∈ lines ->
        ~ line_has_key (normalize_restaurant_name query) line.
Proof.
  intros Hload.
  pose proof (load_lines_returns_well_formed _ _ _ Hload) as Hall.
  rewrite (fetch_restaurant_data_loaded _ _ _ Hload Hall). split.
  - intros Heq line Hin Hkey. apply singleton_list_map_inj in Heq.
    exact (reviews_in_file_order_some _ _ _ Hin Hkey Heq).
  - intros Hnone. rewrite (reviews_in_file_order_none _ _ Hnone). reflexivity.
Qed.

Lemma fetch_unknown_restaurant_witness :
  fetch_restaurant_data {[ "pastaplace"%string := ["Great food."%string] ]} "Subway"
  = {[ "Subway"%string := [] ]}
  <-> forall line, line ∈ ["Pasta Place. Great food."%string] ->
        ~ line_has_key (normalize_restaurant_name "Subway") line.
Proof.
  apply (fetch_unknown_restaurant ["Pasta Place. Great food."%string]).
  vm_compute. reflexivity.
Defined.

(** X17. The sign of the food scores does not matter: negating every food
    score gives the same result, or the same exception, since only the
    square of a food score is used. *)
Theorem calculate_overall_score_food_sign
    (restaurant_name : string) (food_scores customer_service_scores : list Z) :
  calculate_overall_score restaurant_name (map Z.opp food_scores) customer_service_scores
  = calculate_overall_score restaurant_name food_scores customer_service_scores.
Proof.
  destruct (Nat.le_gt_cases (length food_scores) (length customer_service_scores))
    as [Hle|Hlt].
  - rewrite !calculate_overall_score_long by (rewrite ?length_map; exact Hle).
    unfold spec_score. rewrite spec_sum_opp, length_map. reflexivity.
  - rewrite !calculate_overall_score_short by (rewrite ?length_map; exact Hlt).
    rewrite spec_sum_opp. reflexivity.
Qed.
